(** * Partner-dashboard relay: the [GET /partner-dashboard/offers] handler

    A shallow embedding of [src/index.js]: request validation, the
    list-offers call, the concurrent per-offer detail lookups joined by
    [Promise.all], and the JSON responses the handler sends.

    JavaScript values are modelled as far as the handler can observe them:
    - strings are sequences of code units; a Rocq [string] stands for a
      JavaScript string whose code units fit one byte (every literal of the
      source does);
    - numbers are IEEE doubles in JavaScript; the development is parametric
      in their representation and only needs the three operations of
      [JSNumber];
    - objects are association lists in property-enumeration order, with
      unique keys, as [JSON.parse] and the query parser produce them;
    - [undefined] is [None] at type [option json].

    Logging ([console.error], the [morgan] middleware) is not modelled.
    The second file of the repository is an earlier variant of the same
    server with another response contract; the specification follows
    [src/index.js], and so does the main part of this development.  The
    variant is modelled after it, in a section of its own. *)

From Stdlib Require Import ZArith String Ascii List Bool Lia.
From stdpp Require Import base list strings pretty.

Open Scope string_scope.
Set Warnings "-register-all".

(** ** Numbers *)

Class JSNumber := {
  number : Type;
  (** [ToBoolean]: false for [+0], [-0] and [NaN] *)
  number_truthy : number -> bool;
  (** [Number::toString], as used by template literals *)
  number_to_string : number -> string;
  (** the number an array length is *)
  number_of_nat : nat -> number;
}.

(** Integers are an instance, with [0] the falsy one.  Its values stand
    for the safe integers of JavaScript, those of absolute value below
    [2^53], which [Number::toString] prints in plain decimal notation as
    [pretty] does; a larger [Z] stands for no JavaScript number. *)
Definition int_number : JSNumber :=
  {| number := Z;
     number_truthy := fun z => negb (z =? 0)%Z;
     number_to_string := fun z => pretty z;
     number_of_nat := Z.of_nat |}.

(** ** Errors and settled promises *)

(** The exceptions the handler can meet.  The [TypeError]s are raised by
    the interpreter inside the handler: reading a property of [null],
    calling what is not a function, converting to a string an object that
    has no usable [toString].  Everything the platform rejects with
    ([FetchError] on a network failure or a timeout, [SyntaxError] on a
    body that is not JSON, ...) is a [HostError] with its name and
    message. *)
Inductive js_error :=
| TypeError_property_of_null (key : string)
| TypeError_not_a_function (callee : string)
| TypeError_to_primitive
| HostError (name message : string).

Inductive settled (A : Type) :=
| Fulfilled (a : A)
| Rejected (e : js_error).
Arguments Fulfilled {A} a.
Arguments Rejected {A} e.

(** ** Strings *)

(** [String.prototype.includes(needle)]: [needle] occurs in [s]. *)
Fixpoint str_includes (needle s : string) : bool :=
  String.prefix needle s ||
  match s with
  | EmptyString => false
  | String _ s' => str_includes needle s'
  end.

(** [Array.prototype.join(sep)] on already converted elements. *)
Fixpoint join (sep : string) (parts : list string) : string :=
  match parts with
  | [] => ""
  | [p] => p
  | p :: rest => p +:+ sep +:+ join sep rest
  end.

(** [s] between double quotes. *)
Definition quoted (s : string) : string :=
  String (ascii_of_nat 34) s +:+ String (ascii_of_nat 34) EmptyString.

(** The one-code-unit strings of [s], for spreading a string. *)
Fixpoint code_units (s : string) : list string :=
  match s with
  | EmptyString => []
  | String c s' => String c EmptyString :: code_units s'
  end.

(** ** Query values

    [req.query] as Express's query parser builds it: a parameter is absent
    ([None]), a string, an array ([a[]=x&a[]=y], or a repeated key) or an
    object ([a[k]=x]).  The parser is not part of the repository; the
    objects are those of a parser that drops the keys naming a property of
    [Object.prototype] ([toString], [valueOf], ...), so that converting an
    object of the query to a string never throws. *)
Inductive qvalue :=
| QStr (s : string)
| QArr (items : list qvalue)
| QObj (fields : list (string * qvalue)).

Record query := {
  q_type : option qvalue;
  q_affiliate_id : option qvalue;
}.

(** [ToBoolean]: of the query values only the empty string is falsy. *)
Definition q_truthy (v : qvalue) : bool :=
  match v with
  | QStr s => negb (String.eqb s "")
  | QArr _ | QObj _ => true
  end.

(** [!v] for a possibly absent parameter. *)
Definition q_absent (v : option qvalue) : bool :=
  match v with
  | None => true
  | Some v => negb (q_truthy v)
  end.

(** [v === s] for a string literal [s]. *)
Definition q_strict_eq (v : option qvalue) (s : string) : bool :=
  match v with
  | Some (QStr s') => String.eqb s' s
  | _ => false
  end.

(** [v.includes(needle)]: substring search on a string, element search on
    an array, and a [TypeError] on an object, which has no such method. *)
Definition q_includes (v : qvalue) (needle : string) : settled bool :=
  match v with
  | QStr s => Fulfilled (str_includes needle s)
  | QArr items =>
      Fulfilled (existsb (fun x => match x with
                                   | QStr s => String.eqb s needle
                                   | _ => false
                                   end) items)
  | QObj _ => Rejected (TypeError_not_a_function "affiliate_id.includes")
  end.

(** [literals.includes(v)] for an array of string literals. *)
Definition literals_include (literals : list string) (v : option qvalue) : bool :=
  existsb (q_strict_eq v) literals.

(** [ToString], as a template literal applies it: an array is joined with
    commas, an object prints through [Object.prototype.toString], which
    none of its keys hides (see [qvalue]). *)
Fixpoint q_to_string (v : qvalue) : string :=
  match v with
  | QStr s => s
  | QArr items => join "," (map q_to_string items)
  | QObj _ => "[object Object]"
  end.

(** ** JSON values and the values of the handler *)

Section Values.
Context `{JSNumber}.

Inductive json :=
| JNull
| JBool (b : bool)
| JNum (n : number)
| JStr (s : string)
| JArr (items : list json)
| JObj (fields : list (string * json)).

(** [ToBoolean]. *)
Definition truthy (v : json) : bool :=
  match v with
  | JNull => false
  | JBool b => b
  | JNum n => number_truthy n
  | JStr s => negb (String.eqb s "")
  | JArr _ | JObj _ => true
  end.

(** [v || fallback], where [v] may be [undefined]. *)
Definition js_or (v : option json) (fallback : json) : json :=
  match v with
  | Some v => if truthy v then v else fallback
  | None => fallback
  end.

(** The first field named [k] of an object. *)
Fixpoint lookup_field (k : string) (fields : list (string * json)) : option json :=
  match fields with
  | [] => None
  | (k', v) :: rest => if String.eqb k' k then Some v else lookup_field k rest
  end.

Definition settled_map {A B} (f : A -> B) (p : settled A) : settled B :=
  match p with
  | Fulfilled a => Fulfilled (f a)
  | Rejected e => Rejected e
  end.

(** The conversions of the elements, from left to right, up to the first
    that throws. *)
Definition collect {A B} (f : A -> settled B) : list A -> settled (list B) :=
  fix go (l : list A) : settled (list B) :=
    match l with
    | [] => Fulfilled []
    | x :: rest =>
        match f x with
        | Fulfilled b => settled_map (cons b) (go rest)
        | Rejected e => Rejected e
        end
    end.

(** [ToString], as a template literal applies it.  An array is joined with
    commas, [null] elements printing as the empty string.  An object
    prints through its [toString]: the inherited one gives
    ["[object Object]"]; an own property of that name hides it, and since
    a value of JSON is never a function and the inherited [valueOf] returns
    the object itself, the conversion then throws a [TypeError], also from
    inside an array. *)
Fixpoint to_string (v : json) : settled string :=
  match v with
  | JNull => Fulfilled "null"
  | JBool true => Fulfilled "true"
  | JBool false => Fulfilled "false"
  | JNum n => Fulfilled (number_to_string n)
  | JStr s => Fulfilled s
  | JArr items =>
      settled_map (join ",")
        (collect (fun x => match x with
                           | JNull => Fulfilled ""
                           | _ => to_string x
                           end) items)
  | JObj fields =>
      match lookup_field "toString" fields with
      | Some _ => Rejected TypeError_to_primitive
      | None => Fulfilled "[object Object]"
      end
  end.

Definition to_string_opt (v : option json) : settled string :=
  match v with
  | Some v => to_string v
  | None => Fulfilled "undefined"
  end.

(** [v.k] for the keys the handler reads ([offers], [network_offer_id],
    [default_payout], [currency]): none of them names a built-in property
    of a boolean, number, string or array, so only an object can have it;
    reading a property of [null] throws. *)
Definition get_prop (v : json) (k : string) : settled (option json) :=
  match v with
  | JNull => Rejected (TypeError_property_of_null k)
  | JObj fields => Fulfilled (lookup_field k fields)
  | _ => Fulfilled None
  end.

(** [obj.k = v] on the fields of an object: an existing property keeps its
    place, a new one goes last. *)
Fixpoint set_field (k : string) (v : json) (fields : list (string * json))
  : list (string * json) :=
  match fields with
  | [] => [(k, v)]
  | (k', v') :: rest =>
      if String.eqb k' k then (k, v) :: rest else (k', v') :: set_field k v rest
  end.

(** The index keys ["0"], ["1"], ... paired with the elements, from [i]. *)
Fixpoint indexed (i : nat) (items : list json) : list (string * json) :=
  match items with
  | [] => []
  | x :: rest => (pretty i, x) :: indexed (S i) rest
  end.

(** The own enumerable properties [{...v}] copies. *)
Definition spread (v : json) : list (string * json) :=
  match v with
  | JObj fields => fields
  | JArr items => indexed 0 items
  | JStr s => indexed 0 (map JStr (code_units s))
  | JNull | JBool _ | JNum _ => []
  end.

(** [offers.map]: only an array has the method. *)
Definition array_items (v : json) : settled (list json) :=
  match v with
  | JArr items => Fulfilled items
  | _ => Rejected (TypeError_not_a_function "offers.map")
  end.

(** A query value as [res.json] serialises it. *)
Fixpoint q_to_json (v : qvalue) : json :=
  match v with
  | QStr s => JStr s
  | QArr items => JArr (map q_to_json items)
  | QObj fields => JObj (map (fun kv => (fst kv, q_to_json (snd kv))) fields)
  end.

End Values.

(** ** The world the handler runs in *)

Section Relay.
Context `{JSNumber}.

(** [process.env], read where the source reads it. *)
Record config := {
  EFLOW_ADMIN_API_KEY : option string;
  NODE_ENV : option string;
}.

(** One call of [fetch(url, {headers, timeout})]. *)
Record fetch_call := {
  call_url : string;
  call_headers : list (string * option string);
  call_timeout : Z;
}.

(** What [fetch] resolves with: the status line, and what [text()] and
    [json()] settle with when the handler reads the body (either can reject:
    the stream breaks, the body is not JSON). *)
Record response := {
  res_status : Z;
  res_text : settled string;
  res_json : settled json;
}.

(** [response.ok]. *)
Definition res_ok (r : response) : bool :=
  (200 <=? res_status r)%Z && (res_status r <=? 299)%Z.

(** Everything outside the handler that one execution depends on:
    - [upstream]: what each [fetch] settles with ([Rejected] on a network
      error or a timeout);
    - [clock]: what [new Date().toISOString()] returns;
    - [latency]: when the detail lookup of the offer at each position
      settles, which fixes the order in which the lookups complete;
    - [stack_trace]: [err.stack]. *)
Record world := {
  upstream : fetch_call -> settled response;
  clock : string;
  latency : nat -> nat;
  stack_trace : js_error -> string;
}.

(** What the handler sends with [res.status(..).json(..)]. *)
Record http_response := {
  http_status : Z;
  http_body : json;
}.

(** ** Asynchronous computations

    A computation reads the world, appends the [fetch] calls it issues to
    the trace, and ends fulfilled, rejected (an exception) or never
    ([None]). *)
Definition M (A : Type) : Type :=
  world -> list fetch_call -> option (settled A) * list fetch_call.

Definition ret {A} (a : A) : M A :=
  fun _ tr => (Some (Fulfilled a), tr).

Definition bind {A B} (m : M A) (f : A -> M B) : M B :=
  fun w tr =>
    match m w tr with
    | (Some (Fulfilled a), tr') => f a w tr'
    | (Some (Rejected e), tr') => (Some (Rejected e), tr')
    | (None, tr') => (None, tr')
    end.

(** [await p] for a promise that settles with [p]; also a synchronous
    expression that may throw. *)
Definition await {A} (p : settled A) : M A :=
  fun _ tr => (Some p, tr).

(** [try { m } catch (err) { handler err }]. *)
Definition try_catch {A} (m : M A) (handler : js_error -> M A) : M A :=
  fun w tr =>
    match m w tr with
    | (Some (Rejected e), tr') => handler e w tr'
    | r => r
    end.

Definition ask : M world :=
  fun w tr => (Some (Fulfilled w), tr).

(** [await fetch(url, options)]. *)
Definition fetch (c : fetch_call) : M response :=
  fun w tr => (Some (upstream w c), (tr ++ [c])%list).

Notation "x <- m ;; k" := (bind m (fun x => k))
  (at level 100, m at next level, right associativity, only parsing).

(** A promise as [Promise.all] finds it: already settled, or pending with
    what it settles with later ([None]: never). *)
Inductive promise (A : Type) :=
| Settled (s : settled A)
| Pending (s : option (settled A)).
#[global] Arguments Settled {A} s.
#[global] Arguments Pending {A} s.

Definition outcome {A} (p : promise A) : option (settled A) :=
  match p with
  | Settled s => Some s
  | Pending s => s
  end.

Definition is_settled {A} (p : promise A) : bool :=
  match p with
  | Settled _ => true
  | Pending _ => false
  end.

(** The promise of an [async] callback that ends with [p]: the callbacks
    of this program await nothing before their first [fetch], so one that
    issued no call ([quiet]) returned or threw without awaiting, and its
    promise is settled when [map] returns. *)
Definition promise_of {A} (quiet : bool) (p : option (settled A)) : promise A :=
  match p with
  | Some s => if quiet then Settled s else Pending (Some s)
  | None => Pending None
  end.

(** [items.map(async (x) => task x)]: every task is started, in order, and
    runs up to its first [await] before the next one starts, so the
    [fetch] calls are issued in list order; the result is the array of the
    promises, each with what it settles with. *)
Fixpoint map_async {A B} (task : A -> M B) (items : list A)
  : world -> list fetch_call -> list (promise B) * list fetch_call :=
  fun w tr =>
    match items with
    | [] => ([], tr)
    | x :: rest =>
        let '(p, tr1) := task x w tr in
        let '(ps, tr2) := map_async task rest w tr1 in
        (promise_of (length tr1 =? length tr)%nat p :: ps, tr2)
    end.

(** The positions [0 .. n-1] in the order their promises settle: by
    [latency], the earlier position first among equals. *)
Fixpoint insert_by (lat : nat -> nat) (i : nat) (order : list nat) : list nat :=
  match order with
  | [] => [i]
  | j :: rest =>
      if (lat i <=? lat j)%nat then i :: j :: rest else j :: insert_by lat i rest
  end.

Definition completion_order (lat : nat -> nat) (n : nat) : list nat :=
  foldr (insert_by lat) [] (seq 0 n).

(** [Promise.all]'s bookkeeping: as the promise at position [i] fulfils,
    its value is stored in slot [i] of [values]; the first rejection
    rejects the whole. *)
Fixpoint gather {A} (order : list nat) (promises : list (option (settled A)))
    (values : list (option A)) : settled (list (option A)) :=
  match order with
  | [] => Fulfilled values
  | i :: rest =>
      match promises !! i with
      | Some (Some (Fulfilled a)) => gather rest promises (<[i := Some a]> values)
      | Some (Some (Rejected e)) => Rejected e
      | _ => gather rest promises values
      end
  end.

(** The order in which [Promise.all] hears of its promises: the reactions
    of those already settled run first, in list order; the pending ones
    follow as they complete. *)
Definition reaction_order {A} (lat : nat -> nat) (promises : list (promise A))
  : list nat :=
  let settled_at i :=
    match promises !! i with
    | Some p => is_settled p
    | None => false
    end in
  (filter (fun i => settled_at i = true) (seq 0 (length promises))
   ++ filter (fun i => settled_at i = false)
        (completion_order lat (length promises)))%list.

(** [await Promise.all(promises)]: fulfilled with the slots once every one
    is filled, pending for ever otherwise. *)
Definition promise_all {A} (promises : list (promise A)) : M (list A) :=
  fun w tr =>
    match gather (reaction_order (latency w) promises) (outcome <$> promises)
                 (replicate (length promises) None) with
    | Rejected e => (Some (Rejected e), tr)
    | Fulfilled values => (Fulfilled <$> mapM id values, tr)
    end.

(** ** The handler of [GET /partner-dashboard/offers] *)

Definition api_headers (cfg : config) : list (string * option string) :=
  [("X-Eflow-API-Key", EFLOW_ADMIN_API_KEY cfg);
   ("Content-Type", Some "application/json")].

(** [url], lines 76-82. *)
Definition list_url (affiliate_id : qvalue) (type : option qvalue) : string :=
  let url := "https://api.eflow.team/v1/networks/offers?affiliate_id="
             +:+ q_to_string affiliate_id
             +:+ "&limit=10&status=active&visibility=public" in
  if q_strict_eq type "top" then
    url +:+ "&sort_by=payout&sort_direction=desc"
  else if q_strict_eq type "latest" then
    url +:+ "&sort_by=created_at&sort_direction=desc"
  else url.

(** [detailUrl], line 109: the template literal converts [offerId] to a
    string, which can throw. *)
Definition detail_url (affiliate_id : qvalue) (offerId : option json)
  : settled string :=
  settled_map
    (fun id => "https://api.eflow.team/v1/networks/offers/" +:+ id
               +:+ "?affiliate_id=" +:+ q_to_string affiliate_id)
    (to_string_opt offerId).

(** [{...offer, default_payout: .. || 'N/A', currency: .. || ''}],
    lines 123-127. *)
Definition merge_detail (offer : json) (default_payout currency : option json) : json :=
  JObj (set_field "currency" (js_or currency (JStr ""))
          (set_field "default_payout" (js_or default_payout (JStr "N/A"))
             (spread offer))).

(** The body of [offers.map]'s callback, lines 107-132: [offerId] and
    [detailUrl] are computed before the [try]. *)
Definition enrich (cfg : config) (affiliate_id : qvalue) (offer : json) : M json :=
  offerId <- await (get_prop offer "network_offer_id") ;;
  detailUrl <- await (detail_url affiliate_id offerId) ;;
  try_catch
    (detailRes <- fetch {| call_url := detailUrl;
                           call_headers := api_headers cfg;
                           call_timeout := 3000 |} ;;
     if negb (res_ok detailRes) then ret offer
     else
       detailData <- await (res_json detailRes) ;;
       default_payout <- await (get_prop detailData "default_payout") ;;
       currency <- await (get_prop detailData "currency") ;;
       ret (merge_detail offer default_payout currency))
    (fun err => ret offer).

Definition probe_response : http_response :=
  {| http_status := 200;
     http_body := JObj [("status", JStr "success");
                        ("message", JStr "Partner dashboard backend is operational")] |}.

Definition invalid_affiliate_response (affiliate_id : qvalue) : http_response :=
  {| http_status := 400;
     http_body :=
       JObj [("error", JStr "Invalid request");
             ("message", JStr "Valid affiliate_id is required");
             ("details",
              JObj [("received", q_to_json affiliate_id);
                    ("expected", JStr "Non-empty string without special characters")])] |}.

Definition invalid_type_response : http_response :=
  {| http_status := 400;
     http_body :=
       JObj [("error", JStr "Invalid request");
             ("message",
              JStr ("Type must be either " +:+ quoted "top" +:+ " or "
                    +:+ quoted "latest" +:+ " if provided"))] |}.

Definition bad_gateway_response (errorText : string) : http_response :=
  {| http_status := 502;
     http_body :=
       JObj [("error", JStr "Bad Gateway");
             ("message", JStr "Failed to fetch offers from Everflow");
             ("details", JStr errorText)] |}.

(** The success envelope, lines 135-146; [res.json] answers 200. *)
Definition success_response (enrichedOffers : list json) (timestamp : string)
  : http_response :=
  {| http_status := 200;
     http_body :=
       JObj [("status", JStr "success");
             ("data",
              JObj [("offers", JArr enrichedOffers);
                    ("count", JNum (number_of_nat (length enrichedOffers)));
                    ("_metadata",
                     JObj [("source", JStr "Everflow API");
                           ("enrichment", JStr "payout_and_currency");
                           ("timestamp", JStr timestamp)])])] |}.

(** The outer [catch], lines 148-155.  [details] is [err.stack] in
    development and [undefined] otherwise, and [res.json] leaves a
    property whose value is [undefined] out of the body. *)
Definition internal_error_response (cfg : config) (stack : string) : http_response :=
  {| http_status := 500;
     http_body :=
       JObj ([("error", JStr "Internal Server Error");
              ("message", JStr "An unexpected error occurred")]
             ++ (if bool_decide (NODE_ENV cfg = Some "development")
                 then [("details", JStr stack)] else []))%list |}.

(** The [try] block, lines 85-146. *)
Definition relay (cfg : config) (affiliate_id : qvalue) (type : option qvalue)
  : M http_response :=
  response <- fetch {| call_url := list_url affiliate_id type;
                       call_headers := api_headers cfg;
                       call_timeout := 5000 |} ;;
  if negb (res_ok response) then
    errorText <- await (res_text response) ;;
    ret (bad_gateway_response errorText)
  else
    data <- await (res_json response) ;;
    data_offers <- await (get_prop data "offers") ;;
    let offers := js_or data_offers (JArr []) in
    items <- await (array_items offers) ;;
    promises <- (fun w tr =>
                   let '(ps, tr') := map_async (enrich cfg affiliate_id) items w tr in
                   (Some (Fulfilled ps), tr')) ;;
    enrichedOffers <- promise_all promises ;;
    w <- ask ;;
    ret (success_response enrichedOffers (clock w)).

(** The route handler, lines 46-156.  Its promise is fulfilled with the
    response it sent, or rejected when an exception escapes it before any
    response is sent. *)
Definition offers_handler (cfg : config) (q : query) : M http_response :=
  let type := q_type q in
  match q_affiliate_id q with
  | None => ret probe_response
  | Some affiliate_id =>
      if negb (q_truthy affiliate_id) then ret probe_response
      else
        has_brace <- await (q_includes affiliate_id "{") ;;
        if has_brace then ret (invalid_affiliate_response affiliate_id)
        else if negb (q_absent type) && negb (literals_include ["top"; "latest"] type)
        then ret invalid_type_response
        else
          try_catch
            (relay cfg affiliate_id type)
            (fun err =>
               w <- ask ;;
               ret (internal_error_response cfg (stack_trace w err)))
  end.

(** One execution: the outcome and the [fetch] calls issued, in order. *)
Definition run (cfg : config) (w : world) (q : query)
  : option (settled http_response) * list fetch_call :=
  offers_handler cfg q w [].

(** ** Vocabulary of the statements *)

(** [q] passes the three checks of lines 50-74, with [affiliate_id] the
    value of its parameter. *)
Definition accepted (q : query) (affiliate_id : qvalue) : Prop :=
  q_affiliate_id q = Some affiliate_id /\
  q_truthy affiliate_id = true /\
  q_includes affiliate_id "{" = Fulfilled false /\
  (q_absent (q_type q) = true \/
   literals_include ["top"; "latest"] (q_type q) = true).

(** The list-offers call of an accepted request. *)
Definition list_call (cfg : config) (q : query) (affiliate_id : qvalue) : fetch_call :=
  {| call_url := list_url affiliate_id (q_type q);
     call_headers := api_headers cfg;
     call_timeout := 5000 |}.

(** [v.k] where [v] is not [null]. *)
Definition field (v : json) (k : string) : option json :=
  match v with
  | JObj fields => lookup_field k fields
  | _ => None
  end.

(** The exception the callback throws for [offer] before its [try], if
    any (lines 108-109): reading the id of [null], or converting to a
    string an id that has no conversion. *)
Definition start_error (affiliate_id : qvalue) (offer : json) : option js_error :=
  match get_prop offer "network_offer_id" with
  | Rejected e => Some e
  | Fulfilled offerId =>
      match detail_url affiliate_id offerId with
      | Rejected e => Some e
      | Fulfilled _ => None
      end
  end.

(** An offer whose lookup can be started: it is not [null], and its
    [network_offer_id], if it has one, converts to a string. *)
Definition startable (offer : json) : bool :=
  match get_prop offer "network_offer_id" with
  | Rejected _ => false
  | Fulfilled offerId =>
      match to_string_opt offerId with
      | Rejected _ => false
      | Fulfilled _ => true
      end
  end.

(** The first exception thrown for a list of offers, in list order. *)
Fixpoint first_start_error (affiliate_id : qvalue) (offers : list json)
  : option js_error :=
  match offers with
  | [] => None
  | offer :: rest =>
      match start_error affiliate_id offer with
      | Some e => Some e
      | None => first_start_error affiliate_id rest
      end
  end.

(** The detail call of a startable offer (for another offer there is no
    call, and the URL is left empty). *)
Definition detail_call (cfg : config) (affiliate_id : qvalue) (offer : json) : fetch_call :=
  {| call_url :=
       match detail_url affiliate_id (field offer "network_offer_id") with
       | Fulfilled url => url
       | Rejected _ => ""
       end;
     call_headers := api_headers cfg;
     call_timeout := 3000 |}.

(** The detail lookup of [offer] succeeds with the data [d]: the call
    resolves, with a success status and a body that is JSON data.  It fails
    when the call rejects (network error, timeout), on any other status and
    on a malformed body: one that is not JSON, or the JSON [null], which
    has no properties. *)
Definition detail_lookup (cfg : config) (w : world) (affiliate_id : qvalue)
    (offer : json) : option json :=
  match upstream w (detail_call cfg affiliate_id offer) with
  | Fulfilled r =>
      if res_ok r then
        match res_json r with
        | Fulfilled JNull => None
        | Fulfilled d => Some d
        | Rejected _ => None
        end
      else None
  | Rejected _ => None
  end.

(** What the offer becomes, by the merge policy. *)
Definition enriched (cfg : config) (w : world) (affiliate_id : qvalue)
    (offer : json) : json :=
  match detail_lookup cfg w affiliate_id offer with
  | Some d => merge_detail offer (field d "default_payout") (field d "currency")
  | None => offer
  end.

End Relay.

(** ** Concrete executions

    A request for affiliate [af123] against an upstream that lists two
    offers; the numbers are integers. *)

Section Scenarios.
#[local] Existing Instance int_number.

Definition demo_cfg : config :=
  {| EFLOW_ADMIN_API_KEY := Some "secret"; NODE_ENV := Some "production" |}.

Definition demo_query (type : option qvalue) : query :=
  {| q_type := type; q_affiliate_id := Some (QStr "af123") |}.

Definition offer_alpha : json :=
  JObj [("network_offer_id", JNum 1%Z); ("name", JStr "Alpha")].

Definition beta_fields : list (string * json) :=
  [("network_offer_id", JNum 2%Z); ("name", JStr "Beta");
   ("currency", JStr "EUR")].

Definition offer_beta : json := JObj beta_fields.

Definition json_response (status : Z) (body : string) (data : json) : response :=
  {| res_status := status; res_text := Fulfilled body; res_json := Fulfilled data |}.

(** An upstream that lists [offers], answers the detail call of offer 1
    with [detail_1] and that of offer 2 with [detail_2]. *)
Definition demo_upstream (offers : settled response)
    (detail_1 detail_2 : settled response) (c : fetch_call) : settled response :=
  if String.eqb (call_url c)
       "https://api.eflow.team/v1/networks/offers/1?affiliate_id=af123"
  then detail_1
  else if String.eqb (call_url c)
            "https://api.eflow.team/v1/networks/offers/2?affiliate_id=af123"
  then detail_2
  else offers.

Definition demo_world (up : fetch_call -> settled response) (now : string)
    (lat : nat -> nat) : world :=
  {| upstream := up;
     clock := now;
     latency := lat;
     stack_trace := fun _ => "Error at handler" |}.

Definition two_offers : settled response :=
  Fulfilled (json_response 200 "{...}"
               (JObj [("offers", JArr [offer_alpha; offer_beta])])).

Definition network_error : settled response :=
  Rejected (HostError "FetchError" "request failed, reason: ECONNRESET").

Definition usd_data (payout : Z) : json :=
  JObj [("default_payout", JNum payout); ("currency", JStr "USD")].

Definition detail_usd (payout : Z) : settled response :=
  Fulfilled (json_response 200 "{...}" (usd_data payout)).

(** Offer 1's lookup fails with a network error, offer 2's succeeds. *)
Definition partial_upstream : fetch_call -> settled response :=
  demo_upstream two_offers network_error (detail_usd 12).

(** Offer 1's detail reports a payout of zero. *)
Definition zero_payout_upstream : fetch_call -> settled response :=
  demo_upstream two_offers (detail_usd 0) (detail_usd 12).

(** The list call is answered with [status] and the text ["upstream down"]. *)
Definition failing_upstream (status : Z) : fetch_call -> settled response :=
  demo_upstream
    (Fulfilled {| res_status := status;
                  res_text := Fulfilled "upstream down";
                  res_json := Rejected (HostError "SyntaxError" "Unexpected token u") |})
    network_error network_error.

(** Two executions against [up]: one at midnight in which the lookups
    complete in list order, one five seconds later in which they complete
    in reverse order. *)
Definition first_run (up : fetch_call -> settled response) : world :=
  demo_world up "2026-01-01T00:00:00.000Z" (fun _ => 0).

Definition second_run (up : fetch_call -> settled response) : world :=
  demo_world up "2026-01-01T00:00:05.000Z" (fun i => 10 - i).

Definition top_query : query := demo_query (Some (QStr "top")).

Definition list_data : json := JObj [("offers", JArr [offer_alpha; offer_beta])].

Definition beta_merged : json :=
  JObj [("network_offer_id", JNum 2%Z); ("name", JStr "Beta");
        ("currency", JStr "USD"); ("default_payout", JNum 12%Z)].

Definition alpha_not_available : json :=
  JObj [("network_offer_id", JNum 1%Z); ("name", JStr "Alpha");
        ("default_payout", JStr "N/A"); ("currency", JStr "USD")].

(** The upstream lists a [null] among the offers. *)
Definition null_offer_upstream : fetch_call -> settled response :=
  demo_upstream
    (Fulfilled (json_response 200 "{...}"
                  (JObj [("offers", JArr [offer_alpha; JNull; offer_beta])])))
    network_error (detail_usd 12).

End Scenarios.

(** ** Further vocabulary *)

Section Lookups.
Context `{JSNumber}.

(** The detail calls a list of offers gives rise to: one per startable
    offer, in list order. *)
Definition detail_calls (cfg : config) (affiliate_id : qvalue) (offers : list json)
  : list fetch_call :=
  detail_call cfg affiliate_id <$> filter (fun offer => startable offer = true) offers.

End Lookups.

(** ** Further executions *)

Section EdgeScenarios.
#[local] Existing Instance int_number.

Definition development_cfg : config :=
  {| EFLOW_ADMIN_API_KEY := Some "secret"; NODE_ENV := Some "development" |}.

(** The list call itself fails. *)
Definition unreachable_upstream : fetch_call -> settled response :=
  demo_upstream network_error network_error network_error.

(** The list call is answered 200 with a body that is not JSON. *)
Definition html_upstream : fetch_call -> settled response :=
  demo_upstream
    (Fulfilled {| res_status := 200;
                  res_text := Fulfilled "<html>";
                  res_json := Rejected (HostError "SyntaxError" "Unexpected token <") |})
    network_error network_error.

(** The list call is answered 200 with [data] as its body. *)
Definition body_upstream (data : json) : fetch_call -> settled response :=
  demo_upstream (Fulfilled (json_response 200 "{...}" data))
    network_error (detail_usd 12).

Definition no_offers_data : json := JObj [("total", JNum 0%Z)].

Definition keyed_offers_data : json :=
  JObj [("offers", JObj [("1", offer_alpha)])].

Definition null_offer_data : json :=
  JObj [("offers", JArr [offer_alpha; JNull; offer_beta])].

Definition offer_without_id : json := JObj [("name", JStr "Gamma")].

Definition anonymous_offer_data : json :=
  JObj [("offers", JArr [offer_alpha; offer_without_id])].

(** An offer whose id is an object with a [toString] of its own. *)
Definition offer_opaque_id : json :=
  JObj [("network_offer_id", JObj [("toString", JNum 1%Z)]);
        ("name", JStr "Delta")].

Definition opaque_id_data : json :=
  JObj [("offers", JArr [offer_alpha; offer_opaque_id; offer_beta])].

Definition repeated_affiliate_query : query :=
  {| q_type := None;
     q_affiliate_id := Some (QArr [QStr "a{b"; QStr "c"]) |}.

End EdgeScenarios.

(** ** The earlier variant of the server ([src/unnamed/part_000])

    The same relay behind a shared-secret header, with another response
    contract: no status probe, no check of [type], the upstream status
    passed through, and a bare [{offers}] envelope. *)

Section Variant.
Context `{JSNumber}.

Notation "x <- m ;; k" := (bind m (fun x => k))
  (at level 100, m at next level, right associativity, only parsing).

(** What the middleware and the handler read of a request:
    [req.path], [req.headers['x-api-key']] and [req.query]. *)
Record request := {
  req_path : string;
  req_api_key : option string;
  req_query : query;
}.

Definition unauthorized_response : http_response :=
  {| http_status := 403;
     http_body := JObj [("error", JStr "Unauthorized")] |}.

(** [!providedKey]. *)
Definition key_absent (providedKey : option string) : bool :=
  match providedKey with
  | None => true
  | Some k => String.eqb k ""
  end.

(** The middleware, lines 22-30: the response it sends, or [None] when it
    calls [next()]. *)
Definition api_key_middleware (BACKEND_API_KEY : option string) (req : request)
  : option http_response :=
  if String.prefix "/partner-dashboard/offers" (req_path req) then
    let providedKey := req_api_key req in
    if key_absent providedKey
       || negb (bool_decide (providedKey = BACKEND_API_KEY))
    then Some unauthorized_response
    else None
  else None.

(** The variant's calls carry no [timeout] option; [0] is the default of
    the library and disables the timeout. *)
Definition variant_call (cfg : config) (url : string) : fetch_call :=
  {| call_url := url; call_headers := api_headers cfg; call_timeout := 0 |}.

(** The callback of [offers.map], lines 64-86. *)
Definition variant_enrich (cfg : config) (affiliate_id : qvalue) (offer : json)
  : M json :=
  offerId <- await (get_prop offer "network_offer_id") ;;
  detailUrl <- await (detail_url affiliate_id offerId) ;;
  try_catch
    (detailRes <- fetch (variant_call cfg detailUrl) ;;
     if negb (res_ok detailRes) then ret offer
     else
       detailData <- await (res_json detailRes) ;;
       default_payout <- await (get_prop detailData "default_payout") ;;
       currency <- await (get_prop detailData "currency") ;;
       ret (merge_detail offer default_payout currency))
    (fun err => ret offer).

Definition variant_invalid_response : http_response :=
  {| http_status := 400;
     http_body := JObj [("error", JStr "Valid affiliate_id is required")] |}.

Definition variant_failure_response (status : Z) (text : string) : http_response :=
  {| http_status := status;
     http_body := JObj [("error", JStr "Everflow API request failed");
                        ("details", JStr text)] |}.

Definition variant_success_response (enrichedOffers : list json) : http_response :=
  {| http_status := 200;
     http_body := JObj [("offers", JArr enrichedOffers)] |}.

Definition variant_error_response : http_response :=
  {| http_status := 500;
     http_body := JObj [("error", JStr "Internal server error")] |}.

(** The [try] block, lines 48-89; [JSON_parse] is the platform's
    [JSON.parse], which throws on a text that is not JSON. *)
Definition variant_relay (cfg : config) (JSON_parse : string -> settled json)
    (affiliate_id : qvalue) (type : option qvalue) : M http_response :=
  response <- fetch (variant_call cfg (list_url affiliate_id type)) ;;
  text <- await (res_text response) ;;
  if negb (res_ok response) then
    ret (variant_failure_response (res_status response) text)
  else
    data <- await (JSON_parse text) ;;
    data_offers <- await (get_prop data "offers") ;;
    let offers := js_or data_offers (JArr []) in
    items <- await (array_items offers) ;;
    promises <- (fun w tr =>
                   let '(ps, tr') :=
                     map_async (variant_enrich cfg affiliate_id) items w tr in
                   (Some (Fulfilled ps), tr')) ;;
    enrichedOffers <- promise_all promises ;;
    ret (variant_success_response enrichedOffers).

(** The route handler, lines 32-93. *)
Definition variant_handler (cfg : config) (JSON_parse : string -> settled json)
    (q : query) : M http_response :=
  let type := q_type q in
  match q_affiliate_id q with
  | None => ret variant_invalid_response
  | Some affiliate_id =>
      if negb (q_truthy affiliate_id) then ret variant_invalid_response
      else
        has_brace <- await (q_includes affiliate_id "{") ;;
        if has_brace then ret variant_invalid_response
        else
          try_catch
            (variant_relay cfg JSON_parse affiliate_id type)
            (fun _ => ret variant_error_response)
  end.

(** A request that Express routes to the handler: the middleware first,
    then the handler when the middleware calls [next()]. *)
Definition variant_run (cfg : config) (BACKEND_API_KEY : option string)
    (JSON_parse : string -> settled json) (w : world) (req : request)
  : option (settled http_response) * list fetch_call :=
  match api_key_middleware BACKEND_API_KEY req with
  | Some r => (Some (Fulfilled r), [])
  | None => variant_handler cfg JSON_parse (req_query req) w []
  end.

(** The upstream answers by URL alone. *)
Definition answers_by_url (w : world) : Prop :=
  forall c c', call_url c = call_url c' -> upstream w c = upstream w c'.

End Variant.

Section VariantScenarios.
#[local] Existing Instance int_number.

Definition offers_request (key : option string) (q : query) : request :=
  {| req_path := "/partner-dashboard/offers"; req_api_key := key; req_query := q |}.

(** A parser that knows the one body of the scenarios. *)
Definition demo_parse (text : string) : settled json :=
  if String.eqb text "{...}" then Fulfilled list_data
  else Rejected (HostError "SyntaxError" "Unexpected token").

End VariantScenarios.

(** * Properties *)

(** ** Completion order and [Promise.all] *)

Lemma insert_by_perm (lat : nat -> nat) (i : nat) (order : list nat) :
  insert_by lat i order ≡ₚ i :: order.
Proof.
  induction order as [|j rest IH]; simpl; [done|].
  destruct (lat i <=? lat j)%nat; [done|].
  rewrite IH. apply Permutation_swap.
Qed.

Lemma completion_order_perm (lat : nat -> nat) (n : nat) :
  completion_order lat n ≡ₚ seq 0 n.
Proof.
  unfold completion_order. generalize 0.
  induction n as [|n IH]; intros start; simpl; [done|].
  by rewrite insert_by_perm, IH.
Qed.

Lemma completion_order_elem (lat : nat -> nat) (n i : nat) :
  i ∈ completion_order lat n <-> i < n.
Proof. rewrite completion_order_perm, elem_of_seq. lia. Qed.

Section PromiseAll.
Context {A : Type}.
Implicit Types (vals : list A) (values : list (option A)) (order : list nat).

(** Fulfilled promises fill the slots of the positions that completed, and
    a slot once filled stays, whatever the order. *)
Lemma gather_fulfilled vals order values :
  length values = length vals ->
  exists values',
    gather order ((fun v => Some (Fulfilled v)) <$> vals) values = Fulfilled values' /\
    length values' = length vals /\
    forall j, j ∈ order \/ values !! j = Some <$> vals !! j ->
              values' !! j = Some <$> vals !! j.
Proof.
  revert values. induction order as [|i rest IH]; intros values Hlen; cbn [gather].
  - exists values. split; [done|]. split; [done|].
    intros j [Hj|Hj]; [by apply elem_of_nil in Hj|done].
  - rewrite list_lookup_fmap.
    destruct (vals !! i) as [v|] eqn:Hi; cbn [fmap option_fmap option_map].
    + destruct (IH (<[i := Some v]> values)) as (values' & Hg & Hl & Hlook).
      { by rewrite length_insert. }
      exists values'. split; [done|]. split; [done|].
      intros j Hj. apply Hlook.
      apply lookup_lt_Some in Hi as Hlt.
      destruct (decide (j = i)) as [->|Hne].
      * right. rewrite Hi. apply list_lookup_insert_eq. lia.
      * rewrite list_lookup_insert_ne by done.
        destruct Hj as [Hj|Hj]; [|by right].
        apply elem_of_cons in Hj as [?|?]; [done|by left].
    + destruct (IH values Hlen) as (values' & Hg & Hl & Hlook).
      exists values'. split; [done|]. split; [done|].
      intros j Hj. apply Hlook.
      destruct Hj as [Hj|Hj]; [|by right].
      apply elem_of_cons in Hj as [->|?]; [|by left].
      right. rewrite Hi. apply lookup_ge_None.
      apply lookup_ge_None in Hi. lia.
Qed.

(** A rejection anywhere in the completion order rejects the whole, when
    the promises can only reject with [e]. *)
Lemma gather_rejected (promises : list (option (settled A))) e order values :
  (forall i e', promises !! i = Some (Some (Rejected e')) -> e' = e) ->
  (exists i, i ∈ order /\ promises !! i = Some (Some (Rejected e))) ->
  gather order promises values = Rejected e.
Proof.
  intros Hall. revert values.
  induction order as [|i rest IH]; intros values (k & Hk & Hrej); simpl.
  - by apply elem_of_nil in Hk.
  - destruct (promises !! i) as [[[a|e']|]|] eqn:Hi;
      try (apply IH; exists k; split; [|done];
           apply elem_of_cons in Hk as [->|]; [congruence|done]).
    f_equal. eauto.
Qed.

(** The first rejection met in the order rejects the whole. *)
Lemma gather_first_rejected (promises : list (option (settled A))) e
    (pre : list nat) i (post : list nat) values :
  (forall j e', j ∈ pre -> promises !! j <> Some (Some (Rejected e'))) ->
  promises !! i = Some (Some (Rejected e)) ->
  gather (pre ++ i :: post) promises values = Rejected e.
Proof.
  intros Hpre Hi. revert values.
  induction pre as [|j pre IH]; intros values; cbn [app gather].
  - by rewrite Hi.
  - destruct (promises !! j) as [[[a|e']|]|] eqn:Hj;
      try (apply IH; intros k e'' Hk; apply Hpre; by apply list_elem_of_further).
    destruct (Hpre j e' (list_elem_of_here _ _) Hj).
Qed.

End PromiseAll.

Section RelayFacts.
Context `{JSNumber}.

Lemma reaction_order_elem {A} lat (promises : list (promise A)) i :
  i < length promises -> i ∈ reaction_order lat promises.
Proof.
  intros Hi. unfold reaction_order. apply elem_of_app.
  destruct (match promises !! i with
            | Some p => is_settled p
            | None => false
            end) eqn:Hs.
  - left. apply list_elem_of_filter. split; [done|]. apply elem_of_seq. lia.
  - right. apply list_elem_of_filter. split; [done|].
    by apply completion_order_elem.
Qed.

(** [Promise.all] over promises that all fulfil yields their values by
    position, whatever the latencies. *)
Lemma promise_all_fulfilled {A} (promises : list (promise A)) (vals : list A)
    (w : world) tr :
  outcome <$> promises = (fun v => Some (Fulfilled v)) <$> vals ->
  promise_all promises w tr = (Some (Fulfilled vals), tr).
Proof.
  intros Hout. unfold promise_all. rewrite Hout.
  assert (length promises = length vals) as Hlen.
  { apply (f_equal length) in Hout. by rewrite !length_fmap in Hout. }
  destruct (gather_fulfilled vals (reaction_order (latency w) promises)
              (replicate (length promises) None)) as (values' & -> & Hl & Hlook).
  { by rewrite length_replicate. }
  assert (values' = Some <$> vals) as ->.
  { apply list_eq. intros j. rewrite list_lookup_fmap.
    destruct (decide (j < length vals)) as [Hj|Hj].
    - apply Hlook. left. apply reaction_order_elem. lia.
    - rewrite !(proj2 (lookup_ge_None _ _)); [done|lia..]. }
  f_equal. rewrite mapM_fmap_Some; done.
Qed.

(** [Promise.all] rejects with the first promise, in list order, that was
    already rejected, when those before it do not reject: whatever the
    latencies. *)
Lemma promise_all_first_rejected {A} (pre : list (promise A)) e
    (post : list (promise A)) (w : world) tr :
  (forall p e', p ∈ pre -> outcome p <> Some (Rejected e')) ->
  promise_all (pre ++ Settled (Rejected e) :: post) w tr
  = (Some (Rejected e), tr).
Proof.
  intros Hpre. unfold promise_all, reaction_order.
  set (promises := (pre ++ Settled (Rejected e) :: post)%list).
  assert (length promises = length pre + S (length post)) as ->.
  { unfold promises. rewrite length_app. done. }
  rewrite seq_app, filter_app. cbn [seq plus].
  rewrite filter_cons_True.
  2:{ unfold promises. by rewrite list_lookup_middle. }
  rewrite <- !app_assoc. cbn [app].
  rewrite (gather_first_rejected _ e); [done| |].
  - intros j e' [_ Hj]%list_elem_of_filter. apply elem_of_seq in Hj.
    rewrite list_lookup_fmap. unfold promises.
    rewrite lookup_app_l by lia.
    destruct (pre !! j) as [p|] eqn:Hp; [|done]. cbn.
    intros [= Hout]. eapply Hpre; [|exact Hout].
    by eapply list_elem_of_lookup_2.
  - rewrite list_lookup_fmap. unfold promises.
    by rewrite list_lookup_middle.
Qed.

(** ** The detail lookups *)

Lemma get_prop_field (v : json) (k : string) :
  v <> JNull -> get_prop v k = Fulfilled (field v k).
Proof. intros Hv. by destruct v. Qed.

Lemma startable_start_error affiliate_id offer :
  startable offer = true <-> start_error affiliate_id offer = None.
Proof.
  unfold startable, start_error, detail_url.
  destruct (get_prop offer "network_offer_id") as [offerId|e]; [|done].
  by destruct (to_string_opt offerId).
Qed.

Lemma startable_not_null offer : startable offer = true -> offer <> JNull.
Proof. by intros Hs ->. Qed.

(** Induction on a JSON value, through the elements of its arrays. *)
Lemma json_ind_elements (P : json -> Prop) :
  P JNull ->
  (forall b, P (JBool b)) ->
  (forall n, P (JNum n)) ->
  (forall s, P (JStr s)) ->
  (forall items, Forall P items -> P (JArr items)) ->
  (forall fields, P (JObj fields)) ->
  forall v, P v.
Proof.
  intros Hnull Hbool Hnum Hstr Harr Hobj. fix IH 1.
  intros [|b|n|s|items|fields];
    [exact Hnull|apply Hbool|apply Hnum|apply Hstr| |apply Hobj].
  apply Harr. induction items as [|x items IHitems]; constructor.
  - apply IH.
  - exact IHitems.
Qed.

(** The one exception of [ToString]. *)
Lemma to_string_error (v : json) e :
  to_string v = Rejected e -> e = TypeError_to_primitive.
Proof.
  revert e. induction v as [|b|n|s|items IH|fields] using json_ind_elements;
    intros e; cbn [to_string]; try discriminate.
  - destruct b; discriminate.
  - induction IH as [|x items Hx _ IHitems]; [discriminate|].
    cbn [collect].
    destruct (match x with JNull => Fulfilled "" | _ => to_string x end)
      as [sx|ex] eqn:Hsx.
    + destruct (collect _ items) as [ss|e'] eqn:Hss; [discriminate|].
      intros [= <-]. by apply IHitems.
    + intros [= <-]. destruct x; try discriminate; by apply Hx.
  - destruct (lookup_field "toString" fields); [|discriminate].
    by intros [= <-].
Qed.

(** What the callback can throw before its [try]. *)
Lemma start_error_kind affiliate_id offer e :
  start_error affiliate_id offer = Some e ->
  offer = JNull /\ e = TypeError_property_of_null "network_offer_id"
  \/ offer <> JNull /\ e = TypeError_to_primitive.
Proof.
  unfold start_error, detail_url.
  destruct offer; cbn [get_prop]; [intros [= <-]; by left|..];
    (destruct (to_string_opt _) as [id|e'] eqn:Hid; [discriminate|];
     intros [= <-]; right; split; [done|];
     try discriminate;
     match type of Hid with
     | to_string_opt ?o = _ =>
         destruct o; [by eapply to_string_error|discriminate]
     end).
Qed.

Lemma not_startable_error affiliate_id offer :
  startable offer = false -> exists e, start_error affiliate_id offer = Some e.
Proof.
  intros Hs. destruct (start_error affiliate_id offer) as [e|] eqn:Herr;
    [by exists e|].
  apply startable_start_error in Herr. congruence.
Qed.

(** One callback: either it throws before its [try], without a call, or it
    issues its one call and ends with the offer merged or untouched. *)
Lemma enrich_cases cfg affiliate_id offer (w : world) tr :
  enrich cfg affiliate_id offer w tr
  = match start_error affiliate_id offer with
    | Some e => (Some (Rejected e), tr)
    | None => (Some (Fulfilled (enriched cfg w affiliate_id offer)),
               (tr ++ [detail_call cfg affiliate_id offer])%list)
    end.
Proof.
  unfold start_error.
  destruct (get_prop offer "network_offer_id") as [offerId|e] eqn:Hid;
    [|unfold enrich, bind, await; by rewrite Hid].
  assert (field offer "network_offer_id" = offerId) as Hfield.
  { destruct offer; cbn in *; congruence. }
  unfold enrich, enriched, detail_lookup, detail_call, bind, try_catch, await,
    fetch, ret.
  rewrite Hid, Hfield.
  destruct (detail_url affiliate_id offerId) as [url|e]; [|done].
  destruct (upstream w _) as [r|e]; [|done].
  destruct (res_ok r); [|done]. cbn [negb].
  destruct (res_json r) as [d|e]; [|done].
  by destruct d.
Qed.

Lemma enrich_null cfg affiliate_id (w : world) tr :
  enrich cfg affiliate_id JNull w tr
  = (Some (Rejected (TypeError_property_of_null "network_offer_id")), tr).
Proof. reflexivity. Qed.

(** One lookup: one [fetch], and the offer merged or untouched. *)
Lemma enrich_run cfg affiliate_id offer (w : world) tr :
  startable offer = true ->
  enrich cfg affiliate_id offer w tr
  = (Some (Fulfilled (enriched cfg w affiliate_id offer)),
     tr ++ [detail_call cfg affiliate_id offer])%list.
Proof.
  intros Hoffer. rewrite enrich_cases.
  by rewrite (proj1 (startable_start_error affiliate_id offer) Hoffer).
Qed.

Lemma grown_trace (tr : list fetch_call) c :
  (length (tr ++ [c]) =? length tr)%nat = false.
Proof. rewrite length_app. apply Nat.eqb_neq. cbn. lia. Qed.

(** Every lookup is started; a callback that throws issues no call, and
    its promise is rejected at once. *)
Lemma map_async_enrich cfg affiliate_id offers (w : world) tr :
  map_async (enrich cfg affiliate_id) offers w tr
  = ((fun offer =>
        match start_error affiliate_id offer with
        | Some e => Settled (Rejected e)
        | None => Pending (Some (Fulfilled (enriched cfg w affiliate_id offer)))
        end) <$> offers,
     tr ++ detail_calls cfg affiliate_id offers)%list.
Proof.
  revert tr. induction offers as [|offer offers IH]; intros tr; cbn [map_async].
  - by rewrite app_nil_r.
  - unfold detail_calls in *. rewrite enrich_cases.
    pose proof (startable_start_error affiliate_id offer) as Hstart.
    destruct (start_error affiliate_id offer) as [e|] eqn:Herr.
    + rewrite IH, Nat.eqb_refl.
      rewrite filter_cons_False.
      * cbn [fmap list_fmap promise_of]. by rewrite Herr.
      * intros Hs. apply Hstart in Hs. discriminate.
    + rewrite IH, grown_trace.
      rewrite filter_cons_True by by apply Hstart.
      cbn [fmap list_fmap promise_of]. by rewrite Herr, <- app_assoc.
Qed.

Lemma first_start_error_cases affiliate_id offers :
  (first_start_error affiliate_id offers = None
   /\ Forall (fun offer => start_error affiliate_id offer = None) offers)
  \/ (exists pre bad post e,
        offers = (pre ++ bad :: post)%list
        /\ Forall (fun offer => start_error affiliate_id offer = None) pre
        /\ start_error affiliate_id bad = Some e
        /\ first_start_error affiliate_id offers = Some e).
Proof.
  induction offers as [|offer offers IH]; cbn [first_start_error].
  - left. by split.
  - destruct (start_error affiliate_id offer) as [e|] eqn:Herr.
    + right. by exists [], offer, offers, e.
    + destruct IH as [[Hnone Hall]|(pre & bad & post & e & -> & Hpre & Hbad & He)].
      * left. split; [done|]. by constructor.
      * right. exists (offer :: pre), bad, post, e.
        split; [done|]. split; [by constructor|done].
Qed.

(** The join of the lookups: rejected with the first exception thrown, in
    list order, and otherwise the enriched offers by position, whatever
    the latencies. *)
Lemma promise_all_enrich cfg affiliate_id offers (w : world) tr :
  promise_all
    ((fun offer =>
        match start_error affiliate_id offer with
        | Some e => Settled (Rejected e)
        | None => Pending (Some (Fulfilled (enriched cfg w affiliate_id offer)))
        end) <$> offers) w tr
  = (Some match first_start_error affiliate_id offers with
          | Some e => Rejected e
          | None => Fulfilled (enriched cfg w affiliate_id <$> offers)
          end, tr).
Proof.
  destruct (first_start_error_cases affiliate_id offers)
    as [[-> Hall]|(pre & bad & post & e & -> & Hpre & Hbad & ->)].
  - apply promise_all_fulfilled.
    rewrite <- !list_fmap_compose. apply list_fmap_ext.
    intros i offer Hi. cbn.
    rewrite Forall_forall in Hall.
    by rewrite (Hall offer) by by eapply list_elem_of_lookup_2.
  - rewrite fmap_app, fmap_cons, Hbad.
    apply promise_all_first_rejected.
    intros p e' (offer & -> & Hin)%list_elem_of_fmap.
    rewrite Forall_forall in Hpre. by rewrite (Hpre offer Hin).
Qed.

Lemma map_async_run cfg affiliate_id offers (w : world) tr :
  Forall (fun offer => startable offer = true) offers ->
  map_async (enrich cfg affiliate_id) offers w tr
  = ((fun v => Pending (Some (Fulfilled v)))
       <$> (enriched cfg w affiliate_id <$> offers),
     tr ++ (detail_call cfg affiliate_id <$> offers))%list.
Proof.
  intros Hoffers. rewrite map_async_enrich. f_equal.
  - rewrite <- list_fmap_compose. apply list_fmap_ext.
    intros i offer Hi. cbn. rewrite Forall_forall in Hoffers.
    apply list_elem_of_lookup_2, Hoffers in Hi.
    by rewrite (proj1 (startable_start_error affiliate_id offer) Hi).
  - unfold detail_calls. f_equal. f_equal.
    induction Hoffers as [|offer offers Hoffer _ IH]; [done|].
    by rewrite filter_cons_True, IH.
Qed.

Lemma startable_no_error affiliate_id offers :
  Forall (fun offer => startable offer = true) offers ->
  first_start_error affiliate_id offers = None.
Proof.
  induction 1 as [|offer offers Hoffer _ IH]; [done|]. cbn.
  by rewrite (proj1 (startable_start_error affiliate_id offer) Hoffer).
Qed.

(** ** The handler on an accepted request *)

Lemma run_accepted cfg (w : world) q affiliate_id :
  accepted q affiliate_id ->
  run cfg w q
  = try_catch (relay cfg affiliate_id (q_type q))
      (fun err => bind ask (fun w =>
                    ret (internal_error_response cfg (stack_trace w err)))) w [].
Proof.
  intros (Haid & Htruthy & Hbrace & Htype).
  unfold run, offers_handler. rewrite Haid, Htruthy. cbn [negb].
  unfold bind at 1, await at 1. rewrite Hbrace.
  destruct Htype as [-> | ->]; [done|].
  by rewrite andb_false_r.
Qed.

(** The success path: the list call, one detail call per offer in list
    order, and the offers enriched position by position. *)
Lemma relay_success cfg (w : world) q affiliate_id r data offers tr :
  upstream w (list_call cfg q affiliate_id) = Fulfilled r ->
  res_ok r = true ->
  res_json r = Fulfilled data ->
  field data "offers" = Some (JArr offers) ->
  Forall (fun offer => startable offer = true) offers ->
  relay cfg affiliate_id (q_type q) w tr
  = (Some (Fulfilled (success_response (enriched cfg w affiliate_id <$> offers)
                        (clock w))),
     tr ++ list_call cfg q affiliate_id
        :: (detail_call cfg affiliate_id <$> offers))%list.
Proof.
  intros Hup Hok Hjson Hoffers Hstart.
  unfold relay. unfold bind at 1, fetch at 1.
  fold (list_call cfg q affiliate_id). rewrite Hup, Hok. cbn [negb].
  unfold bind at 1, await at 1. rewrite Hjson.
  assert (get_prop data "offers" = Fulfilled (Some (JArr offers))) as ->.
  { destruct data; try discriminate. cbn in *. by rewrite Hoffers. }
  unfold bind at 1, await at 1. cbn [js_or truthy array_items].
  unfold bind at 1, await at 1. unfold bind at 1.
  rewrite map_async_run by done.
  unfold bind at 1. rewrite (promise_all_fulfilled _ (enriched cfg w affiliate_id <$> offers)).
  - unfold bind, ask, ret. by rewrite <- app_assoc.
  - by rewrite <- list_fmap_compose.
Qed.

Lemma run_success cfg (w : world) q affiliate_id r data offers :
  accepted q affiliate_id ->
  upstream w (list_call cfg q affiliate_id) = Fulfilled r ->
  res_ok r = true ->
  res_json r = Fulfilled data ->
  field data "offers" = Some (JArr offers) ->
  Forall (fun offer => startable offer = true) offers ->
  run cfg w q
  = (Some (Fulfilled (success_response (enriched cfg w affiliate_id <$> offers)
                        (clock w))),
     list_call cfg q affiliate_id :: (detail_call cfg affiliate_id <$> offers)).
Proof.
  intros Hacc Hup Hok Hjson Hoffers Hstart.
  rewrite (run_accepted _ _ _ _ Hacc). unfold try_catch.
  by rewrite (relay_success _ _ _ _ _ _ _ _ Hup Hok Hjson Hoffers Hstart).
Qed.

End RelayFacts.

(** ** Strings *)

Lemma append_assoc (a b c : string) : (a +:+ b) +:+ c = a +:+ (b +:+ c).
Proof.
  induction a as [|x a IH]; [done|].
  change (String x (a +:+ b) +:+ c = String x (a +:+ (b +:+ c))).
  change (String x ((a +:+ b) +:+ c) = String x (a +:+ (b +:+ c))).
  by rewrite IH.
Qed.

Lemma append_empty_r (a : string) : a +:+ "" = a.
Proof.
  induction a as [|x a IH]; [done|].
  change (String x (a +:+ "") = String x a). by rewrite IH.
Qed.


(** [includes] on an array compares whole elements. *)
Lemma array_includes_brace (items : list qvalue) :
  q_includes (QArr items) "{" = Fulfilled true <-> QStr "{" ∈ items.
Proof.
  cbn [q_includes]. split.
  - intros [= Hex]. apply existsb_exists in Hex as (x & Hin & Hx).
    destruct x as [s| |]; try discriminate.
    apply String.eqb_eq in Hx as ->. by apply list_elem_of_In.
  - intros Hin. f_equal. apply existsb_exists. exists (QStr "{").
    split; [by apply list_elem_of_In|done].
Qed.

Lemma array_includes_no_brace (items : list qvalue) :
  QStr "{" ∉ items -> q_includes (QArr items) "{" = Fulfilled false.
Proof.
  intros Hnin. pose proof (array_includes_brace items) as Hiff.
  cbn [q_includes] in *. destruct (existsb _ items); [|done].
  destruct Hnin. by apply Hiff.
Qed.

Section Validation.
Context `{JSNumber}.

(** C5.  A request without [affiliate_id] is answered 200 with the static
    operational message, whatever [type] is (absent, a string, an array or
    an object), and the handler issues no upstream call. *)
Theorem C5_status_probe cfg (w : world) (type : option qvalue) :
  run cfg w {| q_type := type; q_affiliate_id := None |}
  = (Some (Fulfilled
             {| http_status := 200;
                http_body :=
                  JObj [("status", JStr "success");
                        ("message",
                         JStr "Partner dashboard backend is operational")] |}),
     []).
Proof. reflexivity. Qed.

(** C10.  An [affiliate_id] that is present but the empty string is falsy:
    the handler takes the status-probe path, answers 200 with the
    operational message rather than a 400, and issues no upstream call. *)
Theorem C10_empty_affiliate_id_is_probe cfg (w : world) (type : option qvalue) :
  run cfg w {| q_type := type; q_affiliate_id := Some (QStr "") |}
  = (Some (Fulfilled probe_response), [])
  /\ http_status probe_response = 200%Z
  /\ field (http_body probe_response) "message"
     = Some (JStr "Partner dashboard backend is operational").
Proof. repeat split. Qed.


(** C6, as the code has it.  With an [affiliate_id] that passes its two
    checks, every [type] that is present, not the empty string and neither
    [top] nor [latest] (a string, an array or an object) is answered 400
    with the invalid-type message, and no upstream call is issued. *)
Theorem C6_invalid_type_rejected cfg (w : world) (q : query)
    (affiliate_id type : qvalue) :
  q_affiliate_id q = Some affiliate_id ->
  q_truthy affiliate_id = true ->
  q_includes affiliate_id "{" = Fulfilled false ->
  q_type q = Some type ->
  type <> QStr "" ->
  type <> QStr "top" ->
  type <> QStr "latest" ->
  run cfg w q = (Some (Fulfilled invalid_type_response), [])
  /\ http_status invalid_type_response = 400%Z
  /\ field (http_body invalid_type_response) "message"
     = Some (JStr ("Type must be either " +:+ quoted "top" +:+ " or "
                   +:+ quoted "latest" +:+ " if provided")).
Proof.
  intros Haid Htruthy Hbrace Htype Hempty Htop Hlatest.
  split; [|by split].
  unfold run, offers_handler. rewrite Haid, Htruthy. cbn [negb].
  unfold bind, await. rewrite Hbrace, Htype.
  assert (q_absent (Some type) = false) as ->.
  { destruct type as [s| |]; try done. cbn.
    destruct (String.eqb_spec s ""); [congruence|done]. }
  assert (literals_include ["top"; "latest"] (Some type) = false) as ->.
  { destruct type as [s| |]; try done. cbn.
    destruct (String.eqb_spec s "top"); [congruence|].
    destruct (String.eqb_spec s "latest"); [congruence|done]. }
  done.
Qed.

End Validation.

Section Gateway.
Context `{JSNumber}.

(** The detail lookups only add calls to the trace. *)
Lemma map_async_extends cfg affiliate_id offers (w : world) tr :
  exists calls,
    snd (map_async (enrich cfg affiliate_id) offers w tr) = (tr ++ calls)%list.
Proof. rewrite map_async_enrich. by eexists. Qed.

Lemma promise_all_trace {A} (promises : list (promise A)) (w : world) tr :
  snd (promise_all promises w tr) = tr.
Proof. unfold promise_all. by destruct (gather _ _ _). Qed.

(** Whatever the upstream does, the list call is the first call of the
    [try] block. *)
Lemma relay_first_call cfg (w : world) q affiliate_id tr :
  exists rest,
    snd (relay cfg affiliate_id (q_type q) w tr)
    = (tr ++ list_call cfg q affiliate_id :: rest)%list.
Proof.
  unfold relay. unfold bind at 1, fetch at 1.
  fold (list_call cfg q affiliate_id).
  set (tr1 := (tr ++ [list_call cfg q affiliate_id])%list).
  assert (forall rest, (tr1 ++ rest)%list
                       = (tr ++ list_call cfg q affiliate_id :: rest)%list) as Htr.
  { intros rest. unfold tr1. by rewrite <- app_assoc. }
  destruct (upstream w (list_call cfg q affiliate_id)) as [r|e];
    [|exists []; by rewrite <- Htr, app_nil_r].
  destruct (res_ok r); cbn [negb].
  - unfold bind at 1, await at 1.
    destruct (res_json r) as [data|e];
      [|exists []; by rewrite <- Htr, app_nil_r].
    unfold bind at 1, await at 1.
    destruct (get_prop data "offers") as [data_offers|e];
      [|exists []; by rewrite <- Htr, app_nil_r].
    unfold bind at 1, await at 1.
    destruct (array_items _) as [items|e];
      [|exists []; by rewrite <- Htr, app_nil_r].
    unfold bind at 1.
    destruct (map_async_extends cfg affiliate_id items w tr1) as [calls Hcalls].
    destruct (map_async _ items w tr1) as [ps tr2]. cbn [snd] in Hcalls. subst tr2.
    unfold bind at 1.
    pose proof (promise_all_trace ps w (tr1 ++ calls)%list) as Hall.
    destruct (promise_all ps w _) as [[[vals|e]|] tr3]; cbn [snd] in Hall;
      subst tr3; exists calls; by rewrite <- Htr.
  - unfold bind, await, ret.
    destruct (res_text r); exists []; by rewrite <- Htr, app_nil_r.
Qed.

(** C8.  The first call of an accepted request is the list-offers call.
    Its URL carries the supplied [affiliate_id] and the fixed parameters
    [limit=10], [status=active] and [visibility=public], followed by the
    payout sort clause when [type] is [top], the creation-time sort clause
    when it is [latest], and nothing when [type] is absent. *)
Theorem C8_list_url cfg (w : world) (q : query) (affiliate_id : qvalue) :
  accepted q affiliate_id ->
  exists sort rest,
    snd (run cfg w q)
    = {| call_url :=
           "https://api.eflow.team/v1/networks/offers?affiliate_id="
           +:+ q_to_string affiliate_id
           +:+ "&limit=10&status=active&visibility=public"
           +:+ sort;
         call_headers := api_headers cfg;
         call_timeout := 5000 |} :: rest
    /\ (q_type q = Some (QStr "top") ->
        sort = "&sort_by=payout&sort_direction=desc")
    /\ (q_type q = Some (QStr "latest") ->
        sort = "&sort_by=created_at&sort_direction=desc")
    /\ (q_absent (q_type q) = true -> sort = "").
Proof.
  intros Hacc.
  exists (if q_strict_eq (q_type q) "top" then "&sort_by=payout&sort_direction=desc"
          else if q_strict_eq (q_type q) "latest"
               then "&sort_by=created_at&sort_direction=desc"
               else "").
  assert (exists rest, snd (run cfg w q) = list_call cfg q affiliate_id :: rest)
    as [rest Hrest].
  { rewrite (run_accepted _ _ _ _ Hacc). unfold try_catch.
    destruct (relay_first_call cfg w q affiliate_id []) as [rest Hrest].
    destruct (relay _ _ _ w []) as [[[resp|e]|] tr]; cbn [snd] in Hrest; subst tr.
    - by exists rest.
    - exists rest. by unfold bind, ask, ret.
    - by exists rest. }
  exists rest. split.
  - rewrite Hrest. unfold list_call, list_url. do 2 f_equal.
    destruct (q_strict_eq (q_type q) "top");
      [|destruct (q_strict_eq (q_type q) "latest")];
      by rewrite ?append_empty_r, ?append_assoc.
  - repeat split.
    + by intros ->.
    + by intros ->.
    + intros Habsent. destruct (q_type q) as [[s| |]|]; try done.
      cbn in Habsent. apply negb_true_iff, negb_false_iff in Habsent.
      by apply String.eqb_eq in Habsent as ->.
Qed.

(** C4, as the code has it.  When the list call of an accepted request
    resolves with a non-success status and the body text [errorText], the
    handler answers 502 with the body [{error: "Bad Gateway", message,
    details: errorText}] and issues no other call: no retry and no detail
    lookup.  The response does not depend on which non-success status the
    upstream sent. *)
Theorem C4_bad_gateway cfg (w : world) (q : query) (affiliate_id : qvalue)
    (r : response) (errorText : string) :
  accepted q affiliate_id ->
  upstream w (list_call cfg q affiliate_id) = Fulfilled r ->
  res_ok r = false ->
  res_text r = Fulfilled errorText ->
  run cfg w q
  = (Some (Fulfilled
             {| http_status := 502;
                http_body :=
                  JObj [("error", JStr "Bad Gateway");
                        ("message", JStr "Failed to fetch offers from Everflow");
                        ("details", JStr errorText)] |}),
     [list_call cfg q affiliate_id]).
Proof.
  intros Hacc Hup Hok Htext.
  rewrite (run_accepted _ _ _ _ Hacc).
  unfold try_catch, relay, bind, fetch, await, ret.
  fold (list_call cfg q affiliate_id).
  by rewrite Hup, Hok, Htext.
Qed.

End Gateway.

Section Enrichment.
Context `{JSNumber}.

(** ** Object updates *)

Lemma lookup_set_field_eq k v (fields : list (string * json)) :
  lookup_field k (set_field k v fields) = Some v.
Proof.
  induction fields as [|[k' v'] rest IH]; cbn [set_field lookup_field].
  - by rewrite String.eqb_refl.
  - destruct (String.eqb_spec k' k) as [->|Hne]; cbn [lookup_field].
    + by rewrite String.eqb_refl.
    + by destruct (String.eqb_spec k' k).
Qed.

Lemma lookup_set_field_ne k k' v (fields : list (string * json)) :
  k <> k' ->
  lookup_field k' (set_field k v fields) = lookup_field k' fields.
Proof.
  intros Hne. induction fields as [|[k0 v0] rest IH]; cbn [set_field lookup_field].
  - by destruct (String.eqb_spec k k').
  - destruct (String.eqb_spec k0 k) as [->|Hne0]; cbn [lookup_field].
    + by destruct (String.eqb_spec k k').
    + by rewrite IH.
Qed.

Lemma keys_set_field k v (fields : list (string * json)) :
  (set_field k v fields).*1
  = if decide (k ∈ fields.*1) then fields.*1 else (fields.*1 ++ [k])%list.
Proof.
  induction fields as [|[k0 v0] rest IH]; cbn [set_field].
  - by rewrite decide_False by apply not_elem_of_nil.
  - destruct (String.eqb_spec k0 k) as [->|Hne0]; cbn [fmap list_fmap fst].
    + by rewrite decide_True by apply list_elem_of_here.
    + change (k0 :: (set_field k v rest).*1
              = if decide (k ∈ k0 :: rest.*1) then k0 :: rest.*1
                else (k0 :: rest.*1 ++ [k])%list).
      rewrite IH. destruct (decide (k ∈ rest.*1)) as [Hin|Hnin].
      * by rewrite decide_True by by apply list_elem_of_further.
      * rewrite decide_False; [done|].
        intros [?|?]%elem_of_cons; congruence.
Qed.

(** C1, as the code has it.  When the list call of an accepted request
    succeeds with [N] offers whose lookups can all be started (none is
    [null], and every [network_offer_id] converts to a string), the
    handler answers 200 with an [offers] array of length [N] in which
    position [i] holds offer [i] of the list, merged with its detail data
    when its lookup succeeded and identical to its input form when it
    failed (non-success status, timeout or network error, malformed
    body).  This holds in every world, so for every order in which the
    lookups complete, and no failed lookup fails the request. *)
Theorem C1_offers_enriched_by_position cfg (w : world) (q : query)
    (affiliate_id : qvalue) (r : response) (data : json) (offers : list json) :
  accepted q affiliate_id ->
  upstream w (list_call cfg q affiliate_id) = Fulfilled r ->
  res_ok r = true ->
  res_json r = Fulfilled data ->
  field data "offers" = Some (JArr offers) ->
  Forall (fun offer => startable offer = true) offers ->
  exists out,
    fst (run cfg w q) = Some (Fulfilled (success_response out (clock w)))
    /\ http_status (success_response out (clock w)) = 200%Z
    /\ field (http_body (success_response out (clock w))) "data"
       = Some (JObj [("offers", JArr out);
                     ("count", JNum (number_of_nat (length offers)));
                     ("_metadata",
                      JObj [("source", JStr "Everflow API");
                            ("enrichment", JStr "payout_and_currency");
                            ("timestamp", JStr (clock w))])])
    /\ length out = length offers
    /\ forall i offer,
         offers !! i = Some offer ->
         out !! i
         = Some match detail_lookup cfg w affiliate_id offer with
                | Some d => merge_detail offer (field d "default_payout")
                                         (field d "currency")
                | None => offer
                end.
Proof.
  intros Hacc Hup Hok Hjson Hoffers Hnonnull.
  exists (enriched cfg w affiliate_id <$> offers).
  rewrite (run_success _ _ _ _ _ _ _ Hacc Hup Hok Hjson Hoffers Hnonnull).
  rewrite length_fmap. repeat split.
  - cbn. by rewrite length_fmap.
  - intros i offer Hi. by rewrite list_lookup_fmap, Hi.
Qed.

(** C3, as the code has it.  When the detail lookup of one offer rejects
    with a network error, that offer is in the output at its position
    unmodified, with no [default_payout] or [currency] added, and the
    response is still 200, provided the lookups of the listed offers can
    all be started. *)
Theorem C3_network_error_leaves_offer cfg (w : world) (q : query)
    (affiliate_id : qvalue) (r : response) (data : json) (offers : list json)
    (i : nat) (offer : json) (e : js_error) :
  accepted q affiliate_id ->
  upstream w (list_call cfg q affiliate_id) = Fulfilled r ->
  res_ok r = true ->
  res_json r = Fulfilled data ->
  field data "offers" = Some (JArr offers) ->
  Forall (fun offer => startable offer = true) offers ->
  offers !! i = Some offer ->
  upstream w (detail_call cfg affiliate_id offer) = Rejected e ->
  exists out,
    fst (run cfg w q) = Some (Fulfilled (success_response out (clock w)))
    /\ http_status (success_response out (clock w)) = 200%Z
    /\ out !! i = Some offer.
Proof.
  intros Hacc Hup Hok Hjson Hoffers Hnonnull Hi Hdetail.
  exists (enriched cfg w affiliate_id <$> offers).
  rewrite (run_success _ _ _ _ _ _ _ Hacc Hup Hok Hjson Hoffers Hnonnull).
  repeat split.
  rewrite list_lookup_fmap, Hi. cbn [fmap option_fmap option_map].
  unfold enriched, detail_lookup. by rewrite Hdetail.
Qed.

(** C2, as the code has it.  In a list of offers whose lookups can all be
    started, the enriched form of an offer whose detail lookup succeeded
    keeps every other field of the offer unchanged and in place, and has
    exactly the two fields [default_payout] and [currency] added or
    overwritten: [default_payout] is the detail's value when that is
    present and truthy and ["N/A"] otherwise, [currency] is the detail's
    value when that is present and truthy and the empty string otherwise. *)
Theorem C2_merge_policy cfg (w : world) (q : query)
    (affiliate_id : qvalue) (r : response) (data : json) (offers : list json)
    (i : nat) (fields : list (string * json)) (d : json) :
  accepted q affiliate_id ->
  upstream w (list_call cfg q affiliate_id) = Fulfilled r ->
  res_ok r = true ->
  res_json r = Fulfilled data ->
  field data "offers" = Some (JArr offers) ->
  Forall (fun offer => startable offer = true) offers ->
  offers !! i = Some (JObj fields) ->
  detail_lookup cfg w affiliate_id (JObj fields) = Some d ->
  exists out fields',
    fst (run cfg w q) = Some (Fulfilled (success_response out (clock w)))
    /\ out !! i = Some (JObj fields')
    /\ (forall k, k <> "default_payout" -> k <> "currency" ->
                  lookup_field k fields' = lookup_field k fields)
    /\ fields'.*1
       = (fields.*1
          ++ filter (fun k => k ∉ fields.*1) ["default_payout"; "currency"])%list
    /\ lookup_field "default_payout" fields'
       = Some match field d "default_payout" with
              | Some v => if truthy v then v else JStr "N/A"
              | None => JStr "N/A"
              end
    /\ lookup_field "currency" fields'
       = Some match field d "currency" with
              | Some v => if truthy v then v else JStr ""
              | None => JStr ""
              end.
Proof.
  intros Hacc Hup Hok Hjson Hoffers Hnonnull Hi Hdetail.
  exists (enriched cfg w affiliate_id <$> offers).
  eexists.
  rewrite (run_success _ _ _ _ _ _ _ Hacc Hup Hok Hjson Hoffers Hnonnull).
  split; [done|]. split.
  { rewrite list_lookup_fmap, Hi. cbn [fmap option_fmap option_map].
    unfold enriched. rewrite Hdetail. reflexivity. }
  cbn [spread]. repeat split.
  - intros k Hdp Hcur. by rewrite !lookup_set_field_ne.
  - rewrite !keys_set_field.
    destruct (decide ("default_payout" ∈ fields.*1)) as [Hdp|Hdp].
    + rewrite filter_cons_False by tauto.
      destruct (decide ("currency" ∈ fields.*1)) as [Hcur|Hcur].
      * by rewrite filter_cons_False, filter_nil, app_nil_r by tauto.
      * by rewrite filter_cons_True, filter_nil by tauto.
    + rewrite filter_cons_True by tauto.
      destruct (decide ("currency" ∈ fields.*1)) as [Hcur|Hcur].
      * rewrite decide_True by (apply elem_of_app; by left).
        by rewrite filter_cons_False, filter_nil by tauto.
      * rewrite decide_False.
        -- rewrite filter_cons_True, filter_nil by tauto.
           by rewrite <- app_assoc.
        -- intros [?|Hin]%elem_of_app; [done|].
           by apply list_elem_of_singleton in Hin.
  - rewrite lookup_set_field_ne by done. by rewrite lookup_set_field_eq.
  - by rewrite lookup_set_field_eq.
Qed.

End Enrichment.

Section Repeatability.
Context `{JSNumber}.

(** The lookups see the world through [upstream] alone. *)
Lemma enrich_upstream cfg affiliate_id offer (w1 w2 : world) tr :
  upstream w1 = upstream w2 ->
  enrich cfg affiliate_id offer w1 tr = enrich cfg affiliate_id offer w2 tr.
Proof.
  intros Hup. rewrite !enrich_cases.
  unfold enriched, detail_lookup. by rewrite Hup.
Qed.

Lemma map_async_upstream cfg affiliate_id offers (w1 w2 : world) tr :
  upstream w1 = upstream w2 ->
  map_async (enrich cfg affiliate_id) offers w1 tr
  = map_async (enrich cfg affiliate_id) offers w2 tr.
Proof.
  intros Hup. revert tr.
  induction offers as [|offer offers IH]; intros tr; cbn [map_async]; [done|].
  rewrite (enrich_upstream _ _ _ w1 w2) by done.
  destruct (enrich _ _ offer w2 tr) as [p tr1]. by rewrite IH.
Qed.

(** Every lookup settles: a callback either threw before its [try], and
    its promise is rejected at once, or its promise fulfils later. *)
Lemma map_async_settled cfg affiliate_id offers (w : world) tr :
  Forall (fun p => (exists v, p = Pending (Some (Fulfilled v)))
                   \/ exists e, p = Settled (Rejected e))
         (fst (map_async (enrich cfg affiliate_id) offers w tr)).
Proof.
  rewrite map_async_enrich. cbn [fst]. apply Forall_fmap, Forall_forall.
  intros offer _. cbn.
  destruct (start_error affiliate_id offer); [right|left]; by eexists.
Qed.

Lemma settled_cases {A} (promises : list (promise A)) :
  Forall (fun p => (exists v, p = Pending (Some (Fulfilled v)))
                   \/ exists e, p = Settled (Rejected e))
         promises ->
  (exists vals, outcome <$> promises = (fun v => Some (Fulfilled v)) <$> vals)
  \/ exists pre e post,
       promises = (pre ++ Settled (Rejected e) :: post)%list
       /\ forall p e', p ∈ pre -> outcome p <> Some (Rejected e').
Proof.
  intros Hsettled.
  induction Hsettled
    as [|p ps [[v ->]|[e ->]] _ [[vals Hvals]|(pre & e' & post & -> & Hpre)]].
  - left. by exists [].
  - left. exists (v :: vals). cbn. by rewrite Hvals.
  - right. exists (Pending (Some (Fulfilled v)) :: pre), e', post.
    split; [done|]. intros p e'' [->|Hp]%elem_of_cons; [done|by apply Hpre].
  - right. exists [], e, ps. split; [done|].
    intros p e' Hp. by apply elem_of_nil in Hp.
  - right. exists [], e, (pre ++ Settled (Rejected e') :: post)%list.
    split; [done|]. intros p e'' Hp. by apply elem_of_nil in Hp.
Qed.

(** The join settles, and does not depend on the order of completion. *)
Lemma promise_all_order {A} (promises : list (promise A)) (w1 w2 : world) tr :
  Forall (fun p => (exists v, p = Pending (Some (Fulfilled v)))
                   \/ exists e, p = Settled (Rejected e))
         promises ->
  is_Some (fst (promise_all promises w1 tr))
  /\ promise_all promises w1 tr = promise_all promises w2 tr.
Proof.
  intros Hsettled.
  destruct (settled_cases promises Hsettled)
    as [[vals Hvals]|(pre & e & post & -> & Hpre)].
  - by rewrite !(promise_all_fulfilled promises vals).
  - by rewrite !promise_all_first_rejected.
Qed.

(** The handler always settles: no execution is left pending. *)
Lemma run_settles cfg (w : world) (q : query) : is_Some (fst (run cfg w q)).
Proof.
  unfold run, offers_handler.
  destruct (q_affiliate_id q) as [affiliate_id|]; [|done].
  destruct (q_truthy affiliate_id); cbn [negb]; [|done].
  unfold bind at 1, await at 1.
  destruct (q_includes affiliate_id "{") as [[|]|e]; try done.
  destruct (negb (q_absent (q_type q)) && _); [done|].
  unfold try_catch, relay, bind, fetch, await.
  set (tr1 := ([] ++ [_])%list).
  destruct (upstream w _) as [r|e]; [|done].
  destruct (res_ok r); cbn [negb]; [|by destruct (res_text r)].
  destruct (res_json r) as [data|e]; [|done].
  destruct (get_prop data "offers") as [data_offers|e]; [|done].
  destruct (array_items _) as [items|e]; [|done].
  pose proof (map_async_settled cfg affiliate_id items w tr1) as Hsettled.
  destruct (map_async _ items w tr1) as [ps tr2]. cbn [fst] in Hsettled.
  destruct (promise_all_order ps w w tr2 Hsettled) as [[o Ho] _].
  by destruct (promise_all ps w tr2) as [[[vals|e]|] tr3].
Qed.

(** Two executions of the [try] block against the same upstream issue the
    same calls and end alike, up to the clock reading in a success. *)
Lemma relay_repeatable cfg affiliate_id type (w1 w2 : world) tr :
  upstream w1 = upstream w2 ->
  snd (relay cfg affiliate_id type w1 tr) = snd (relay cfg affiliate_id type w2 tr)
  /\ (fst (relay cfg affiliate_id type w1 tr) = fst (relay cfg affiliate_id type w2 tr)
      \/ exists out,
           fst (relay cfg affiliate_id type w1 tr)
           = Some (Fulfilled (success_response out (clock w1)))
           /\ fst (relay cfg affiliate_id type w2 tr)
              = Some (Fulfilled (success_response out (clock w2)))).
Proof.
  intros Hup. unfold relay, bind, fetch, await. rewrite <- Hup.
  set (tr1 := (tr ++ [_])%list).
  destruct (upstream w1 _) as [r|e]; [|by split; [|left]].
  destruct (res_ok r); cbn [negb];
    [|destruct (res_text r); by split; [|left]].
  destruct (res_json r) as [data|e]; [|by split; [|left]].
  destruct (get_prop data "offers") as [data_offers|e]; [|by split; [|left]].
  destruct (array_items _) as [items|e]; [|by split; [|left]].
  rewrite <- (map_async_upstream cfg affiliate_id items w1 w2) by done.
  pose proof (map_async_settled cfg affiliate_id items w1 tr1) as Hsettled.
  destruct (map_async _ items w1 tr1) as [ps tr2]. cbn [fst] in Hsettled.
  rewrite <- (proj2 (promise_all_order ps w1 w2 tr2 Hsettled)).
  destruct (promise_all ps w1 tr2) as [[[vals|e]|] tr3]; try by split; [|left].
  unfold ask, ret. cbn [fst snd]. split; [done|].
  right. by exists vals.
Qed.

(** C9, as the code has it.  Two executions of the handler on the same
    request against the same upstream issue the same upstream calls and
    end alike: with identical outcomes, or, on the success path, with 200
    responses that have the same [offers] array, the same [count] and the
    same envelope and differ at most in [data._metadata.timestamp], which
    is the clock reading of each execution.  The order in which the detail
    lookups complete has no influence. *)
Theorem C9_repeatable_up_to_timestamp cfg (w1 w2 : world) (q : query) :
  upstream w1 = upstream w2 ->
  stack_trace w1 = stack_trace w2 ->
  snd (run cfg w1 q) = snd (run cfg w2 q)
  /\ (fst (run cfg w1 q) = fst (run cfg w2 q)
      \/ exists out,
           fst (run cfg w1 q) = Some (Fulfilled (success_response out (clock w1)))
           /\ fst (run cfg w2 q) = Some (Fulfilled (success_response out (clock w2)))).
Proof.
  intros Hup Hstack. unfold run, offers_handler.
  destruct (q_affiliate_id q) as [affiliate_id|]; [|by split; [|left]].
  destruct (q_truthy affiliate_id); cbn [negb]; [|by split; [|left]].
  unfold bind, await.
  destruct (q_includes affiliate_id "{") as [[|]|e]; try by split; [|left].
  destruct (negb (q_absent (q_type q)) && _); [by split; [|left]|].
  unfold try_catch.
  destruct (relay_repeatable cfg affiliate_id (q_type q) w1 w2 [] Hup)
    as [Htrace Hout].
  destruct (relay _ _ _ w1 []) as [o1 tr1], (relay _ _ _ w2 []) as [o2 tr2].
  cbn [fst snd] in *. subst tr2.
  destruct Hout as [<-|(out & -> & ->)].
  - destruct o1 as [[resp|e]|]; try by split; [|left].
    unfold ask, ret. rewrite Hstack. by split; [|left].
  - split; [done|]. right. by exists out.
Qed.

End Repeatability.

(** ** The claims on concrete executions *)

Section Executions.
#[local] Existing Instance int_number.

(** The model on inputs at the edge of the data model. *)

Example completion_in_list_order :
  completion_order (latency (first_run partial_upstream)) 3 = [0; 1; 2].
Proof. reflexivity. Qed.

Example completion_in_reverse_order :
  completion_order (latency (second_run partial_upstream)) 3 = [2; 1; 0].
Proof. reflexivity. Qed.

(** A [null] in the list makes the callback throw outside its [try]: the
    join rejects and the request ends in the outer [catch], after the
    lookups of the other offers were issued. *)
Example null_offer_is_internal_error :
  run demo_cfg (first_run null_offer_upstream) top_query
  = (Some (Fulfilled
             {| http_status := 500;
                http_body :=
                  JObj [("error", JStr "Internal Server Error");
                        ("message", JStr "An unexpected error occurred")] |}),
     [list_call demo_cfg top_query (QStr "af123");
      detail_call demo_cfg (QStr "af123") offer_alpha;
      detail_call demo_cfg (QStr "af123") offer_beta]).
Proof. reflexivity. Qed.

(** [affiliate_id[k]=v] parses to an object, which has no [includes]: the
    exception escapes the handler before its [try]. *)
Example object_affiliate_id_throws :
  run demo_cfg (first_run partial_upstream)
    {| q_type := None; q_affiliate_id := Some (QObj [("k", QStr "v")]) |}
  = (Some (Rejected (TypeError_not_a_function "affiliate_id.includes")), []).
Proof. reflexivity. Qed.

(** A repeated [affiliate_id] parses to an array, which the template
    literal joins with commas. *)
Example array_affiliate_id_is_joined :
  list_url (QArr [QStr "af1"; QStr "af2"]) None
  = "https://api.eflow.team/v1/networks/offers?affiliate_id=af1,af2&limit=10&status=active&visibility=public".
Proof. reflexivity. Qed.

(** An object with a [toString] of its own has no conversion to a string,
    also as an element of an array; any other object prints as usual. *)
Example opaque_object_throws :
  to_string (JArr [JNum 7%Z; JObj [("toString", JNum 1%Z)]])
  = Rejected TypeError_to_primitive.
Proof. reflexivity. Qed.

Example plain_object_prints :
  to_string (JArr [JNum 7%Z; JNull; JObj [("valueOf", JNum 1%Z)]])
  = Fulfilled "7,,[object Object]".
Proof. reflexivity. Qed.

Example spread_of_a_string :
  merge_detail (JStr "ab") None None
  = JObj [("0", JStr "a"); ("1", JStr "b");
          ("default_payout", JStr "N/A"); ("currency", JStr "")].
Proof. reflexivity. Qed.

Lemma top_query_accepted : accepted top_query (QStr "af123").
Proof. repeat split. by right. Defined.

Lemma two_offers_startable :
  Forall (fun offer : json => startable offer = true) [offer_alpha; offer_beta].
Proof. repeat (constructor; [reflexivity|]). constructor. Defined.

(** C1 refuted as stated: the list call succeeds with three offers, the
    second with an id that has no conversion to a string, and the request
    is answered 500. *)
Lemma C1_counterexample :
  upstream (first_run (body_upstream opaque_id_data))
    (list_call demo_cfg top_query (QStr "af123"))
  = Fulfilled (json_response 200 "{...}" opaque_id_data)
  /\ field opaque_id_data "offers"
     = Some (JArr [offer_alpha; offer_opaque_id; offer_beta])
  /\ field offer_opaque_id "network_offer_id"
     = Some (JObj [("toString", JNum 1%Z)])
  /\ fst (run demo_cfg (first_run (body_upstream opaque_id_data)) top_query)
     = Some (Fulfilled
               {| http_status := 500;
                  http_body :=
                    JObj [("error", JStr "Internal Server Error");
                          ("message", JStr "An unexpected error occurred")] |}).
Proof. repeat split. Qed.

(** C1 on the execution in which offer 2's lookup completes before offer
    1's fails: both offers are returned, in list order. *)
Lemma C1_witness :
  completion_order (latency (second_run partial_upstream)) 2 = [1; 0]
  /\ exists out,
       fst (run demo_cfg (second_run partial_upstream) top_query)
       = Some (Fulfilled (success_response out "2026-01-01T00:00:05.000Z"))
       /\ length out = 2
       /\ out !! 0 = Some offer_alpha
       /\ out !! 1 = Some beta_merged.
Proof.
  split; [reflexivity|].
  destruct (C1_offers_enriched_by_position demo_cfg (second_run partial_upstream)
              top_query (QStr "af123")
              (json_response 200 "{...}" list_data) list_data
              [offer_alpha; offer_beta]
              top_query_accepted eq_refl eq_refl eq_refl eq_refl
              two_offers_startable)
    as (out & Hrun & _ & _ & Hlen & Hpos).
  exists out. split; [exact Hrun|]. split; [exact Hlen|]. split.
  - exact (Hpos 0 offer_alpha eq_refl).
  - exact (Hpos 1 offer_beta eq_refl).
Defined.

(** C2 refuted as stated: the detail of offer 1 has a [default_payout], the
    number zero, and the enriched offer carries ["N/A"] instead. *)
Lemma C2_counterexample :
  detail_lookup demo_cfg (first_run zero_payout_upstream) (QStr "af123") offer_alpha
  = Some (usd_data 0)
  /\ field (usd_data 0) "default_payout" = Some (JNum 0%Z)
  /\ fst (run demo_cfg (first_run zero_payout_upstream) top_query)
     = Some (Fulfilled
               (success_response
                  [alpha_not_available; beta_merged]
                  "2026-01-01T00:00:00.000Z"))
  /\ field alpha_not_available "default_payout" = Some (JStr "N/A").
Proof. repeat split. Qed.

(** C2 on offer 2, whose lookup succeeds: [currency] is overwritten in
    place, [default_payout] is added last, the other fields stay. *)
Lemma C2_witness :
  exists out fields',
    fst (run demo_cfg (first_run partial_upstream) top_query)
    = Some (Fulfilled (success_response out "2026-01-01T00:00:00.000Z"))
    /\ out !! 1 = Some (JObj fields')
    /\ lookup_field "name" fields' = Some (JStr "Beta")
    /\ fields'.*1 = ["network_offer_id"; "name"; "currency"; "default_payout"]
    /\ lookup_field "default_payout" fields' = Some (JNum 12%Z)
    /\ lookup_field "currency" fields' = Some (JStr "USD").
Proof.
  destruct (C2_merge_policy demo_cfg (first_run partial_upstream)
              top_query (QStr "af123")
              (json_response 200 "{...}" list_data) list_data
              [offer_alpha; offer_beta] 1
              beta_fields (usd_data 12)
              top_query_accepted eq_refl eq_refl eq_refl eq_refl
              two_offers_startable eq_refl eq_refl)
    as (out & fields' & Hrun & Hout & Hother & Hkeys & Hpayout & Hcurrency).
  exists out, fields'.
  split; [exact Hrun|]. split; [exact Hout|]. split.
  - rewrite Hother; [reflexivity|discriminate..].
  - split; [exact Hkeys|]. split; [exact Hpayout|exact Hcurrency].
Defined.

(** C3 refuted as stated: offer 1's lookup throws a network error, and
    offer 1 is in the output with neither [default_payout] nor
    [currency]. *)
Lemma C3_counterexample :
  upstream (first_run partial_upstream)
    (detail_call demo_cfg (QStr "af123") offer_alpha)
  = Rejected (HostError "FetchError" "request failed, reason: ECONNRESET")
  /\ fst (run demo_cfg (first_run partial_upstream) top_query)
     = Some (Fulfilled
               (success_response [offer_alpha; beta_merged]
                  "2026-01-01T00:00:00.000Z"))
  /\ field offer_alpha "default_payout" = None
  /\ field offer_alpha "currency" = None.
Proof. repeat split. Qed.

(** C3 on offer 1, whose lookup throws. *)
Lemma C3_witness :
  exists out,
    fst (run demo_cfg (first_run partial_upstream) top_query)
    = Some (Fulfilled (success_response out "2026-01-01T00:00:00.000Z"))
    /\ http_status (success_response out "2026-01-01T00:00:00.000Z") = 200%Z
    /\ out !! 0 = Some offer_alpha.
Proof.
  exact (C3_network_error_leaves_offer demo_cfg (first_run partial_upstream)
           top_query (QStr "af123")
           (json_response 200 "{...}" list_data) list_data
           [offer_alpha; offer_beta] 0 offer_alpha
           (HostError "FetchError" "request failed, reason: ECONNRESET")
           top_query_accepted eq_refl eq_refl eq_refl eq_refl
           two_offers_startable eq_refl eq_refl).
Defined.

(** C4 refuted as stated: upstream statuses 500 and 503 with the same body
    text get the same response, whose body is [{error, message, details}]
    with the text in [details]: the upstream status is not in it. *)
Lemma C4_counterexample :
  run demo_cfg (first_run (failing_upstream 500)) top_query
  = run demo_cfg (first_run (failing_upstream 503)) top_query
  /\ fst (run demo_cfg (first_run (failing_upstream 500)) top_query)
     = Some (Fulfilled
               {| http_status := 502;
                  http_body :=
                    JObj [("error", JStr "Bad Gateway");
                          ("message", JStr "Failed to fetch offers from Everflow");
                          ("details", JStr "upstream down")] |}).
Proof. split; reflexivity. Qed.

(** C4 on an upstream that answers the list call with 500. *)
Lemma C4_witness :
  run demo_cfg (first_run (failing_upstream 500)) top_query
  = (Some (Fulfilled
             {| http_status := 502;
                http_body :=
                  JObj [("error", JStr "Bad Gateway");
                        ("message", JStr "Failed to fetch offers from Everflow");
                        ("details", JStr "upstream down")] |}),
     [list_call demo_cfg top_query (QStr "af123")]).
Proof.
  exact (C4_bad_gateway demo_cfg (first_run (failing_upstream 500)) top_query
           (QStr "af123")
           {| res_status := 500;
              res_text := Fulfilled "upstream down";
              res_json := Rejected (HostError "SyntaxError" "Unexpected token u") |}
           "upstream down" top_query_accepted eq_refl eq_refl eq_refl).
Defined.

(** C6 refuted as stated: [type] present and empty is none of absent,
    [top] and [latest], and the request is relayed and answered 200. *)
Lemma C6_counterexample :
  q_type (demo_query (Some (QStr ""))) = Some (QStr "")
  /\ exists out,
       run demo_cfg (first_run partial_upstream) (demo_query (Some (QStr "")))
       = (Some (Fulfilled (success_response out "2026-01-01T00:00:00.000Z")),
          [list_call demo_cfg (demo_query None) (QStr "af123");
           detail_call demo_cfg (QStr "af123") offer_alpha;
           detail_call demo_cfg (QStr "af123") offer_beta])
       /\ http_status (success_response out "2026-01-01T00:00:00.000Z") = 200%Z.
Proof. split; [reflexivity|]. eexists. split; reflexivity. Qed.

(** C6 on [type=newest]. *)
Lemma C6_witness :
  run demo_cfg (first_run partial_upstream) (demo_query (Some (QStr "newest")))
  = (Some (Fulfilled invalid_type_response), []).
Proof.
  apply (C6_invalid_type_rejected demo_cfg (first_run partial_upstream)
           (demo_query (Some (QStr "newest"))) (QStr "af123") (QStr "newest"));
    (reflexivity || discriminate).
Defined.



(** C8 on [affiliate_id=af123&type=top]. *)
Lemma C8_witness :
  exists rest,
    snd (run demo_cfg (first_run partial_upstream) top_query)
    = {| call_url :=
           "https://api.eflow.team/v1/networks/offers?affiliate_id=af123&limit=10&status=active&visibility=public&sort_by=payout&sort_direction=desc";
         call_headers := api_headers demo_cfg;
         call_timeout := 5000 |} :: rest.
Proof.
  destruct (C8_list_url demo_cfg (first_run partial_upstream) top_query
              (QStr "af123") top_query_accepted)
    as (sort & rest & Hcalls & Htop & _ & _).
  exists rest. rewrite Hcalls, (Htop eq_refl). reflexivity.
Defined.

(** C9 refuted as stated: two executions of the same request against the
    same upstream, five seconds apart, send different bodies. *)
Lemma C9_counterexample :
  upstream (first_run partial_upstream) = upstream (second_run partial_upstream)
  /\ fst (run demo_cfg (first_run partial_upstream) top_query)
     = Some (Fulfilled (success_response [offer_alpha; beta_merged]
                          "2026-01-01T00:00:00.000Z"))
  /\ fst (run demo_cfg (second_run partial_upstream) top_query)
     = Some (Fulfilled (success_response [offer_alpha; beta_merged]
                          "2026-01-01T00:00:05.000Z"))
  /\ fst (run demo_cfg (first_run partial_upstream) top_query)
     <> fst (run demo_cfg (second_run partial_upstream) top_query).
Proof.
  split; [reflexivity|]. split; [reflexivity|]. split; [reflexivity|].
  vm_compute. discriminate.
Qed.

(** C9 on the two executions: another clock, another completion order. *)
Lemma C9_witness :
  snd (run demo_cfg (first_run partial_upstream) top_query)
  = snd (run demo_cfg (second_run partial_upstream) top_query)
  /\ (fst (run demo_cfg (first_run partial_upstream) top_query)
      = fst (run demo_cfg (second_run partial_upstream) top_query)
      \/ exists out,
           fst (run demo_cfg (first_run partial_upstream) top_query)
           = Some (Fulfilled (success_response out "2026-01-01T00:00:00.000Z"))
           /\ fst (run demo_cfg (second_run partial_upstream) top_query)
              = Some (Fulfilled (success_response out "2026-01-01T00:00:05.000Z"))).
Proof.
  exact (C9_repeatable_up_to_timestamp demo_cfg (first_run partial_upstream)
           (second_run partial_upstream) top_query eq_refl eq_refl).
Defined.

End Executions.

(** * Further properties of the handler *)

Section Outcomes.
Context `{JSNumber}.

(** What the [try] block does, case by case. *)
Lemma relay_cases cfg (w : world) (q : query) affiliate_id :
  exists offers,
    snd (relay cfg affiliate_id (q_type q) w [])
    = list_call cfg q affiliate_id :: detail_calls cfg affiliate_id offers
    /\ ((exists r text,
           upstream w (list_call cfg q affiliate_id) = Fulfilled r
           /\ res_ok r = false
           /\ res_text r = Fulfilled text
           /\ offers = []
           /\ fst (relay cfg affiliate_id (q_type q) w [])
              = Some (Fulfilled (bad_gateway_response text)))
        \/ (exists e,
              fst (relay cfg affiliate_id (q_type q) w []) = Some (Rejected e))
        \/ fst (relay cfg affiliate_id (q_type q) w [])
           = Some (Fulfilled
                     (success_response (enriched cfg w affiliate_id <$> offers)
                        (clock w)))).
Proof.
  unfold relay, bind, fetch, await. fold (list_call cfg q affiliate_id).
  destruct (upstream w (list_call cfg q affiliate_id)) as [r|e] eqn:Hup;
    [|exists []; split; [done|]; right; left; by eexists].
  destruct (res_ok r) eqn:Hok; cbn [negb].
  - destruct (res_json r) as [data|e];
      [|exists []; split; [done|]; right; left; by eexists].
    destruct (get_prop data "offers") as [data_offers|e];
      [|exists []; split; [done|]; right; left; by eexists].
    destruct (array_items _) as [items|e];
      [|exists []; split; [done|]; right; left; by eexists].
    rewrite map_async_enrich, promise_all_enrich.
    exists items. cbn [app].
    destruct (first_start_error affiliate_id items); (split; [done|]);
      [right; left; by eexists|by right; right].
  - exists []. destruct (res_text r) as [text|e] eqn:Htext.
    + split; [done|]. left. by exists r, text.
    + split; [done|]. right. left. by eexists.
Qed.

(** What the handler does, case by case: a request that is not accepted
    is answered at once, without a call, unless its [affiliate_id] is an
    object; an accepted one is relayed. *)
Lemma run_cases cfg (w : world) (q : query) :
  (snd (run cfg w q) = []
   /\ (fst (run cfg w q) = Some (Fulfilled probe_response)
       \/ (exists affiliate_id,
             q_affiliate_id q = Some affiliate_id
             /\ fst (run cfg w q)
                = Some (Fulfilled (invalid_affiliate_response affiliate_id)))
       \/ fst (run cfg w q) = Some (Fulfilled invalid_type_response)
       \/ (exists fields,
             q_affiliate_id q = Some (QObj fields)
             /\ fst (run cfg w q)
                = Some (Rejected (TypeError_not_a_function "affiliate_id.includes")))))
  \/ (exists affiliate_id offers,
        accepted q affiliate_id
        /\ snd (run cfg w q)
           = list_call cfg q affiliate_id :: detail_calls cfg affiliate_id offers
        /\ ((exists r text,
               upstream w (list_call cfg q affiliate_id) = Fulfilled r
               /\ res_ok r = false
               /\ res_text r = Fulfilled text
               /\ offers = []
               /\ fst (run cfg w q) = Some (Fulfilled (bad_gateway_response text)))
            \/ (exists e,
                  fst (run cfg w q)
                  = Some (Fulfilled
                            (internal_error_response cfg (stack_trace w e))))
            \/ fst (run cfg w q)
               = Some (Fulfilled
                         (success_response (enriched cfg w affiliate_id <$> offers)
                            (clock w))))).
Proof.
  destruct (q_affiliate_id q) as [affiliate_id|] eqn:Haid;
    [|left; unfold run, offers_handler; rewrite Haid; split; [done|by left]].
  destruct (q_truthy affiliate_id) eqn:Htruthy;
    [|left; unfold run, offers_handler; rewrite Haid, Htruthy;
      split; [done|by left]].
  destruct (q_includes affiliate_id "{") as [[|]|e] eqn:Hbrace.
  - left. unfold run, offers_handler, bind, await.
    rewrite Haid, Htruthy, Hbrace. split; [done|]. right. left. by eexists.
  - destruct (negb (q_absent (q_type q))
              && negb (literals_include ["top"; "latest"] (q_type q))) eqn:Htype.
    + left. unfold run, offers_handler, bind, await.
      rewrite Haid, Htruthy, Hbrace, Htype. split; [done|]. by right; right; left.
    + assert (accepted q affiliate_id) as Hacc.
      { repeat split; try done.
        apply andb_false_iff in Htype as [Ht|Ht]; apply negb_false_iff in Ht; auto. }
      right. exists affiliate_id.
      destruct (relay_cases cfg w q affiliate_id) as (offers & Htrace & Hout).
      exists offers. split; [done|].
      rewrite (run_accepted _ _ _ _ Hacc). unfold try_catch.
      destruct (relay cfg affiliate_id (q_type q) w []) as [o tr].
      cbn [fst snd] in *. subst tr.
      destruct Hout as [(r & text & ? & ? & ? & ? & ->)|[[e ->]| ->]].
      * split; [done|]. left. by exists r, text.
      * split; [done|]. right. left. by exists e.
      * split; [done|]. by right; right.
  - left. unfold run, offers_handler, bind, await.
    rewrite Haid, Htruthy, Hbrace. split; [done|]. right; right; right.
    destruct affiliate_id as [s|items|fields]; try discriminate.
    exists fields. split; [done|]. cbn in Hbrace. by injection Hbrace as <-.
Qed.

End Outcomes.

Section HandlerContract.
Context `{JSNumber}.

(** X1.  Whatever the request and the upstream, a response of the handler
    has status 200, 400, 500 or 502. *)
Theorem handler_status_codes cfg (w : world) (q : query) (r : http_response) :
  fst (run cfg w q) = Some (Fulfilled r) ->
  http_status r = 200%Z \/ http_status r = 400%Z
  \/ http_status r = 500%Z \/ http_status r = 502%Z.
Proof.
  intros Hr.
  destruct (run_cases cfg w q)
    as [[_ [Hp|[(a & _ & Hp)|[Hp|(f & _ & Hp)]]]]
       |(a & offers & _ & _ & [(r0 & text & _ & _ & _ & _ & Hp)|[[e Hp]|Hp]])];
    rewrite Hp in Hr; simplify_eq; cbn; auto.
Qed.

(** X2.  The handler calls the upstream only for an accepted request, and
    then the list call comes first, alone with its 5000 ms timeout,
    followed by nothing but detail calls of the same affiliate with a
    3000 ms timeout; every call carries the configured API key header. *)
Theorem upstream_calls_shape cfg (w : world) (q : query) :
  (snd (run cfg w q) = []
   \/ exists affiliate_id rest,
        accepted q affiliate_id
        /\ snd (run cfg w q) = list_call cfg q affiliate_id :: rest
        /\ call_timeout (list_call cfg q affiliate_id) = 5000%Z
        /\ Forall (fun c => call_timeout c = 3000%Z
                            /\ exists offer, c = detail_call cfg affiliate_id offer)
                  rest)
  /\ Forall (fun c => call_headers c
                      = [("X-Eflow-API-Key", EFLOW_ADMIN_API_KEY cfg);
                         ("Content-Type", Some "application/json")])
            (snd (run cfg w q)).
Proof.
  destruct (run_cases cfg w q) as [[-> _]|(a & offers & Hacc & -> & _)].
  - split; [by left|constructor].
  - assert (Forall (fun c => call_timeout c = 3000%Z
                             /\ call_headers c = api_headers cfg
                             /\ exists offer, c = detail_call cfg a offer)
                   (detail_calls cfg a offers)) as Hdetails.
    { unfold detail_calls. apply Forall_fmap, Forall_forall.
      intros offer _. cbn. eauto. }
    split.
    + right. exists a, (detail_calls cfg a offers).
      split; [done|]. split; [done|]. split; [done|].
      eapply Forall_impl; [exact Hdetails|]. by intros c (Ht & _ & Ho).
    + constructor; [done|].
      eapply Forall_impl; [exact Hdetails|]. by intros c (_ & Hh & _).
Qed.

(** X3.  A 400 is never preceded by an upstream call. *)
Theorem no_call_before_rejection cfg (w : world) (q : query) (r : http_response) :
  fst (run cfg w q) = Some (Fulfilled r) ->
  http_status r = 400%Z ->
  snd (run cfg w q) = [].
Proof.
  intros Hr Hstatus.
  destruct (run_cases cfg w q)
    as [[Htrace _]
       |(a & offers & _ & _ & [(r0 & text & _ & _ & _ & _ & Hp)|[[e Hp]|Hp]])];
    [done|..]; rewrite Hp in Hr; simplify_eq; discriminate.
Qed.

(** X4.  Outside development a 500 never carries a stack trace: its body
    is exactly [{error, message}]. *)
Theorem production_hides_stack cfg (w : world) (q : query) (r : http_response) :
  NODE_ENV cfg <> Some "development" ->
  fst (run cfg w q) = Some (Fulfilled r) ->
  http_status r = 500%Z ->
  http_body r
  = JObj [("error", JStr "Internal Server Error");
          ("message", JStr "An unexpected error occurred")].
Proof.
  intros Henv Hr Hstatus.
  destruct (run_cases cfg w q)
    as [[_ [Hp|[(a & _ & Hp)|[Hp|(f & _ & Hp)]]]]
       |(a & offers & _ & _ & [(r0 & text & _ & _ & _ & _ & Hp)|[[e Hp]|Hp]])];
    rewrite Hp in Hr; simplify_eq; try discriminate.
  cbn. by rewrite bool_decide_eq_false_2.
Qed.

(** X5.  A 502 is sent only when the list call of an accepted request
    resolved with a non-success status; its [details] is then the body
    text, and the list call is the only call. *)
Theorem bad_gateway_only_on_upstream_failure cfg (w : world) (q : query)
    (r : http_response) :
  fst (run cfg w q) = Some (Fulfilled r) ->
  http_status r = 502%Z ->
  exists affiliate_id upstream_response text,
    accepted q affiliate_id
    /\ upstream w (list_call cfg q affiliate_id) = Fulfilled upstream_response
    /\ res_ok upstream_response = false
    /\ res_text upstream_response = Fulfilled text
    /\ field (http_body r) "details" = Some (JStr text)
    /\ snd (run cfg w q) = [list_call cfg q affiliate_id].
Proof.
  intros Hr Hstatus.
  destruct (run_cases cfg w q)
    as [[_ [Hp|[(a & _ & Hp)|[Hp|(f & _ & Hp)]]]]
       |(a & offers & Hacc & Htrace
         & [(r0 & text & Hup & Hok & Htext & -> & Hp)|[[e Hp]|Hp]])];
    rewrite Hp in Hr; simplify_eq; try discriminate.
  by exists a, r0, text.
Qed.

End HandlerContract.

Section ListPhase.
Context `{JSNumber}.

(** An accepted request whose list call is answered with JSON data: the
    offers are [data.offers || []]. *)
Lemma run_with_offers cfg (w : world) q affiliate_id r data :
  accepted q affiliate_id ->
  upstream w (list_call cfg q affiliate_id) = Fulfilled r ->
  res_ok r = true ->
  res_json r = Fulfilled data ->
  data <> JNull ->
  run cfg w q
  = match array_items (js_or (field data "offers") (JArr [])) with
    | Fulfilled items =>
        (Some (Fulfilled
                 match first_start_error affiliate_id items with
                 | Some e => internal_error_response cfg (stack_trace w e)
                 | None => success_response (enriched cfg w affiliate_id <$> items)
                             (clock w)
                 end),
         list_call cfg q affiliate_id :: detail_calls cfg affiliate_id items)
    | Rejected e =>
        (Some (Fulfilled (internal_error_response cfg (stack_trace w e))),
         [list_call cfg q affiliate_id])
    end.
Proof.
  intros Hacc Hup Hok Hjson Hdata.
  rewrite (run_accepted _ _ _ _ Hacc).
  unfold try_catch, relay, bind, fetch, await.
  fold (list_call cfg q affiliate_id).
  rewrite Hup, Hok, Hjson, (get_prop_field _ _ Hdata). cbn [negb app].
  destruct (array_items _) as [items|e]; [|done].
  rewrite map_async_enrich, promise_all_enrich. cbn [app].
  by destruct (first_start_error affiliate_id items).
Qed.

(** X7.  When the list call itself rejects (network error, timeout), the
    request ends in the outer [catch]: 500, after that one call and no
    retry; the stack trace is in the body in development only. *)
Theorem list_call_failure_is_internal_error cfg (w : world) (q : query)
    (affiliate_id : qvalue) (e : js_error) :
  accepted q affiliate_id ->
  upstream w (list_call cfg q affiliate_id) = Rejected e ->
  exists r,
    run cfg w q = (Some (Fulfilled r), [list_call cfg q affiliate_id])
    /\ http_status r = 500%Z
    /\ field (http_body r) "error" = Some (JStr "Internal Server Error")
    /\ field (http_body r) "details"
       = if bool_decide (NODE_ENV cfg = Some "development")
         then Some (JStr (stack_trace w e)) else None.
Proof.
  intros Hacc Hup.
  exists (internal_error_response cfg (stack_trace w e)). split.
  - rewrite (run_accepted _ _ _ _ Hacc).
    unfold try_catch, relay, bind, fetch, await.
    fold (list_call cfg q affiliate_id). by rewrite Hup.
  - unfold internal_error_response. by case_bool_decide.
Qed.

(** X8.  A successful list response whose data has no [offers], or a
    falsy one, is an empty list and not an error: 200 with no offers and
    a count of zero, after the list call alone. *)
Theorem missing_offers_is_empty_list cfg (w : world) (q : query)
    (affiliate_id : qvalue) (r : response) (data : json) :
  accepted q affiliate_id ->
  upstream w (list_call cfg q affiliate_id) = Fulfilled r ->
  res_ok r = true ->
  res_json r = Fulfilled data ->
  data <> JNull ->
  (field data "offers" = None
   \/ exists v, field data "offers" = Some v /\ truthy v = false) ->
  run cfg w q
  = (Some (Fulfilled
             {| http_status := 200;
                http_body :=
                  JObj [("status", JStr "success");
                        ("data",
                         JObj [("offers", JArr []);
                               ("count", JNum (number_of_nat 0));
                               ("_metadata",
                                JObj [("source", JStr "Everflow API");
                                      ("enrichment", JStr "payout_and_currency");
                                      ("timestamp", JStr (clock w))])])] |}),
     [list_call cfg q affiliate_id]).
Proof.
  intros Hacc Hup Hok Hjson Hdata Hoffers.
  rewrite (run_with_offers _ _ _ _ _ _ Hacc Hup Hok Hjson Hdata).
  by destruct Hoffers as [->|(v & -> & Hv)]; cbn; rewrite ?Hv.
Qed.

(** X9.  A list response with a 2xx status whose body is not JSON is an
    internal error (500), not a gateway error, after the list call
    alone. *)
Theorem malformed_list_body_is_internal_error cfg (w : world) (q : query)
    (affiliate_id : qvalue) (r : response) (e : js_error) :
  accepted q affiliate_id ->
  upstream w (list_call cfg q affiliate_id) = Fulfilled r ->
  res_ok r = true ->
  res_json r = Rejected e ->
  run cfg w q
  = (Some (Fulfilled (internal_error_response cfg (stack_trace w e))),
     [list_call cfg q affiliate_id])
  /\ http_status (internal_error_response cfg (stack_trace w e)) = 500%Z.
Proof.
  intros Hacc Hup Hok Hjson. split; [|done].
  rewrite (run_accepted _ _ _ _ Hacc).
  unfold try_catch, relay, bind, fetch, await.
  fold (list_call cfg q affiliate_id). by rewrite Hup, Hok, Hjson.
Qed.

(** X10.  An [offers] value that is truthy but not an array (an object
    keyed by id, a string, a number) has no [map]: the request ends in
    500, after the list call alone. *)
Theorem non_array_offers_is_internal_error cfg (w : world) (q : query)
    (affiliate_id : qvalue) (r : response) (data v : json) :
  accepted q affiliate_id ->
  upstream w (list_call cfg q affiliate_id) = Fulfilled r ->
  res_ok r = true ->
  res_json r = Fulfilled data ->
  field data "offers" = Some v ->
  truthy v = true ->
  (forall items, v <> JArr items) ->
  run cfg w q
  = (Some (Fulfilled
             (internal_error_response cfg
                (stack_trace w (TypeError_not_a_function "offers.map")))),
     [list_call cfg q affiliate_id])
  /\ http_status
       (internal_error_response cfg
          (stack_trace w (TypeError_not_a_function "offers.map"))) = 500%Z.
Proof.
  intros Hacc Hup Hok Hjson Hoffers Hv Harray. split; [|done].
  assert (data <> JNull) as Hdata by (intros ->; discriminate).
  rewrite (run_with_offers _ _ _ _ _ _ Hacc Hup Hok Hjson Hdata).
  rewrite Hoffers. cbn [js_or]. rewrite Hv.
  destruct v; try done. by destruct (Harray items).
Qed.

(** X11.  When the lookups of the listed offers can all be started (no
    offer is [null], every [network_offer_id] converts to a string), the
    handler issues the list call and then one detail call per offer, in
    list order, whatever the lookups answer: a failed lookup cancels none
    of the others. *)
Theorem detail_calls_in_list_order cfg (w : world) (q : query)
    (affiliate_id : qvalue) (r : response) (data : json) (offers : list json) :
  accepted q affiliate_id ->
  upstream w (list_call cfg q affiliate_id) = Fulfilled r ->
  res_ok r = true ->
  res_json r = Fulfilled data ->
  field data "offers" = Some (JArr offers) ->
  Forall (fun offer => startable offer = true) offers ->
  snd (run cfg w q)
  = list_call cfg q affiliate_id :: (detail_call cfg affiliate_id <$> offers)
  /\ length (snd (run cfg w q)) = S (length offers).
Proof.
  intros Hacc Hup Hok Hjson Hoffers Hnonnull.
  rewrite (run_success _ _ _ _ _ _ _ Hacc Hup Hok Hjson Hoffers Hnonnull).
  split; [done|]. cbn. by rewrite length_fmap.
Qed.

(** X12.  The first listed offer whose lookup cannot be started (a [null],
    or an offer whose [network_offer_id] has no conversion to a string)
    fails the whole request: 500 for the exception it throws, although the
    detail calls of all the startable offers are issued. *)
Theorem malformed_offer_fails_request cfg (w : world) (q : query)
    (affiliate_id : qvalue) (r : response) (data : json)
    (pre : list json) (bad : json) (post : list json) :
  accepted q affiliate_id ->
  upstream w (list_call cfg q affiliate_id) = Fulfilled r ->
  res_ok r = true ->
  res_json r = Fulfilled data ->
  field data "offers" = Some (JArr (pre ++ bad :: post)%list) ->
  Forall (fun offer => startable offer = true) pre ->
  startable bad = false ->
  exists e,
    (bad = JNull /\ e = TypeError_property_of_null "network_offer_id"
     \/ bad <> JNull /\ e = TypeError_to_primitive)
    /\ run cfg w q
       = (Some (Fulfilled (internal_error_response cfg (stack_trace w e))),
          list_call cfg q affiliate_id
            :: (detail_call cfg affiliate_id
                  <$> (pre ++ filter (fun offer => startable offer = true) post)%list))
    /\ http_status (internal_error_response cfg (stack_trace w e)) = 500%Z.
Proof.
  intros Hacc Hup Hok Hjson Hoffers Hpre Hbad.
  destruct (not_startable_error affiliate_id bad Hbad) as [e Herr].
  pose proof (start_error_kind _ _ _ Herr) as Hkind.
  exists e. split; [done|]. split; [|done].
  assert (data <> JNull) as Hdata by (intros ->; discriminate).
  rewrite (run_with_offers _ _ _ _ _ _ Hacc Hup Hok Hjson Hdata).
  rewrite Hoffers. cbn [js_or truthy array_items].
  assert (first_start_error affiliate_id (pre ++ bad :: post)%list = Some e) as ->.
  { clear -Hpre Herr. induction Hpre as [|offer pre Hoffer _ IH]; cbn.
    - by rewrite Herr.
    - by rewrite (proj1 (startable_start_error affiliate_id offer) Hoffer). }
  f_equal. f_equal. unfold detail_calls. f_equal.
  rewrite filter_app, filter_cons_False by by rewrite Hbad.
  f_equal. clear -Hpre. induction Hpre as [|offer pre Hoffer _ IH]; [done|].
  by rewrite filter_cons_True, IH.
Qed.

(** X13.  Among offers whose lookups can all be started, an offer without
    [network_offer_id] is still looked up, at the URL of the offer named
    [undefined]. *)
Theorem missing_offer_id_requests_undefined cfg (w : world) (q : query)
    (affiliate_id : qvalue) (r : response) (data : json) (offers : list json)
    (i : nat) (offer : json) :
  accepted q affiliate_id ->
  upstream w (list_call cfg q affiliate_id) = Fulfilled r ->
  res_ok r = true ->
  res_json r = Fulfilled data ->
  field data "offers" = Some (JArr offers) ->
  Forall (fun offer => startable offer = true) offers ->
  offers !! i = Some offer ->
  field offer "network_offer_id" = None ->
  snd (run cfg w q) !! S i
  = Some {| call_url :=
              "https://api.eflow.team/v1/networks/offers/undefined?affiliate_id="
              +:+ q_to_string affiliate_id;
            call_headers := api_headers cfg;
            call_timeout := 3000 |}.
Proof.
  intros Hacc Hup Hok Hjson Hoffers Hnonnull Hi Hid.
  rewrite (run_success _ _ _ _ _ _ _ Hacc Hup Hok Hjson Hoffers Hnonnull).
  cbn [snd].
  etrans; [apply (lookup_cons_ne_0 _ _ (S i)); lia|]. cbn [pred].
  rewrite list_lookup_fmap, Hi.
  cbn. unfold detail_call, detail_url. by rewrite Hid.
Qed.

End ListPhase.

Section ArrayParameters.
Context `{JSNumber}.

(** X14.  A repeated [affiliate_id] parses to an array, on which
    [includes] compares whole elements: the request is rejected with 400,
    [received] being the array, when one of the values is exactly [{]. *)
Theorem array_affiliate_brace_element_rejected cfg (w : world) (q : query)
    (items : list qvalue) :
  q_affiliate_id q = Some (QArr items) ->
  QStr "{" ∈ items ->
  run cfg w q
  = (Some (Fulfilled
             {| http_status := 400;
                http_body :=
                  JObj [("error", JStr "Invalid request");
                        ("message", JStr "Valid affiliate_id is required");
                        ("details",
                         JObj [("received", JArr (map q_to_json items));
                               ("expected",
                                JStr "Non-empty string without special characters")])] |}),
     []).
Proof.
  intros Haid Hin. unfold run, offers_handler, bind, await.
  rewrite Haid. cbn [q_truthy negb].
  by rewrite (proj2 (array_includes_brace items) Hin).
Qed.

(** X15.  When no value of a repeated [affiliate_id] is exactly [{], the
    request passes the check, even if a value contains the character, and
    the values go into the list URL joined by commas. *)
Theorem array_affiliate_is_joined cfg (w : world) (q : query)
    (items : list qvalue) :
  q_affiliate_id q = Some (QArr items) ->
  QStr "{" ∉ items ->
  q_absent (q_type q) = true ->
  exists rest,
    snd (run cfg w q)
    = {| call_url :=
           "https://api.eflow.team/v1/networks/offers?affiliate_id="
           +:+ join "," (map q_to_string items)
           +:+ "&limit=10&status=active&visibility=public";
         call_headers := api_headers cfg;
         call_timeout := 5000 |} :: rest.
Proof.
  intros Haid Hnin Htype.
  assert (accepted q (QArr items)) as Hacc.
  { split; [done|]. split; [done|]. split; [|by left].
    by apply array_includes_no_brace. }
  rewrite (run_accepted _ _ _ _ Hacc). unfold try_catch.
  destruct (relay_first_call cfg w q (QArr items) []) as [rest Hrest].
  assert (list_call cfg q (QArr items)
          = {| call_url :=
                 "https://api.eflow.team/v1/networks/offers?affiliate_id="
                 +:+ join "," (map q_to_string items)
                 +:+ "&limit=10&status=active&visibility=public";
               call_headers := api_headers cfg;
               call_timeout := 5000 |}) as Hcall.
  { unfold list_call, list_url. f_equal.
    destruct (q_type q) as [[s| |]|]; try done.
    cbn in Htype. apply negb_true_iff, negb_false_iff, String.eqb_eq in Htype.
    by subst s. }
  rewrite Hcall in Hrest.
  destruct (relay _ _ _ w []) as [[[resp|e]|] tr]; cbn [snd app] in Hrest;
    subst tr; by exists rest.
Qed.

End ArrayParameters.

Section Merge.
Context `{JSNumber}.

Lemma set_field_same k v (fields : list (string * json)) :
  lookup_field k fields = Some v -> set_field k v fields = fields.
Proof.
  induction fields as [|[k' v'] rest IH]; cbn [lookup_field set_field]; [done|].
  destruct (String.eqb_spec k' k) as [->|Hne].
  - by intros [= ->].
  - intros Hlook. by rewrite IH.
Qed.

Lemma set_field_nodup k v (fields : list (string * json)) :
  NoDup fields.*1 -> NoDup (set_field k v fields).*1.
Proof.
  intros Hnodup. rewrite keys_set_field. case_decide as Hin; [done|].
  apply NoDup_app. split; [done|]. split; [|apply NoDup_singleton].
  intros k' Hk' ->%list_elem_of_singleton. done.
Qed.

(** X16.  Merging keeps an object well formed: when the offer has no key
    twice, neither has the enriched offer. *)
Theorem merge_keeps_keys_unique (fields : list (string * json))
    (default_payout currency : option json) :
  NoDup fields.*1 ->
  exists fields',
    merge_detail (JObj fields) default_payout currency = JObj fields'
    /\ NoDup fields'.*1.
Proof.
  intros Hnodup. eexists. split; [reflexivity|].
  cbn [spread]. by do 2 apply set_field_nodup.
Qed.

(** X17.  Merging is idempotent: enriching an already enriched offer with
    the same detail values changes nothing. *)
Theorem merge_detail_idempotent (offer : json)
    (default_payout currency : option json) :
  merge_detail (merge_detail offer default_payout currency) default_payout currency
  = merge_detail offer default_payout currency.
Proof.
  unfold merge_detail. cbn [spread]. f_equal.
  set (fields := spread offer).
  rewrite (set_field_same "default_payout").
  - apply set_field_same, lookup_set_field_eq.
  - rewrite lookup_set_field_ne by done. apply lookup_set_field_eq.
Qed.

End Merge.

(** * The earlier variant *)

Section VariantFacts.
Context `{JSNumber}.

Lemma variant_run_authorized cfg BACKEND_API_KEY JSON_parse (w : world) req :
  api_key_middleware BACKEND_API_KEY req = None ->
  variant_run cfg BACKEND_API_KEY JSON_parse w req
  = variant_handler cfg JSON_parse (req_query req) w [].
Proof. intros Hpass. unfold variant_run. by rewrite Hpass. Qed.

(** X18.  On the guarded paths only a request whose [x-api-key] is not
    empty and equals the configured key gets past the middleware: any
    other is answered 403 without a call.  In particular, when no key is
    configured every request is refused. *)
Theorem variant_requires_matching_key cfg (BACKEND_API_KEY : option string)
    JSON_parse (w : world) (req : request) :
  String.prefix "/partner-dashboard/offers" (req_path req) = true ->
  (forall k, req_api_key req = Some k -> BACKEND_API_KEY = Some k -> k = "") ->
  variant_run cfg BACKEND_API_KEY JSON_parse w req
  = (Some (Fulfilled {| http_status := 403;
                        http_body := JObj [("error", JStr "Unauthorized")] |}),
     []).
Proof.
  intros Hpath Hkey. unfold variant_run, api_key_middleware. rewrite Hpath.
  destruct (req_api_key req) as [k|]; [|done]. cbn [key_absent].
  destruct (String.eqb_spec k "") as [->|Hne]; [done|]. cbn [orb].
  case_bool_decide as Heq; [|done].
  destruct Hne. by apply Hkey.
Qed.

(** X19.  The variant has no status probe: past the middleware, a request
    without [affiliate_id], with an empty one, or with one that fails the
    [{] check is answered 400 without a call. *)
Theorem variant_missing_affiliate_is_error cfg BACKEND_API_KEY JSON_parse
    (w : world) (req : request) :
  api_key_middleware BACKEND_API_KEY req = None ->
  (q_absent (q_affiliate_id (req_query req)) = true
   \/ exists affiliate_id,
        q_affiliate_id (req_query req) = Some affiliate_id
        /\ q_includes affiliate_id "{" = Fulfilled true) ->
  variant_run cfg BACKEND_API_KEY JSON_parse w req
  = (Some (Fulfilled
             {| http_status := 400;
                http_body := JObj [("error", JStr "Valid affiliate_id is required")] |}),
     []).
Proof.
  intros Hpass Hbad. rewrite variant_run_authorized by done.
  unfold variant_handler, bind, await.
  destruct Hbad as [Habsent|(affiliate_id & -> & Hbrace)].
  - destruct (q_affiliate_id _) as [affiliate_id|]; [|done].
    cbn in Habsent. by rewrite Habsent.
  - rewrite Hbrace. by destruct (q_truthy affiliate_id).
Qed.

(** X20.  The variant passes the upstream's status through: when the list
    call resolves with a non-success status, the response has that very
    status and the body text in [details], after the list call alone. *)
Theorem variant_passes_upstream_status cfg BACKEND_API_KEY JSON_parse
    (w : world) (req : request) (affiliate_id : qvalue) (r : response)
    (text : string) :
  api_key_middleware BACKEND_API_KEY req = None ->
  q_affiliate_id (req_query req) = Some affiliate_id ->
  q_truthy affiliate_id = true ->
  q_includes affiliate_id "{" = Fulfilled false ->
  upstream w (variant_call cfg (list_url affiliate_id (q_type (req_query req))))
  = Fulfilled r ->
  res_ok r = false ->
  res_text r = Fulfilled text ->
  variant_run cfg BACKEND_API_KEY JSON_parse w req
  = (Some (Fulfilled
             {| http_status := res_status r;
                http_body := JObj [("error", JStr "Everflow API request failed");
                                   ("details", JStr text)] |}),
     [variant_call cfg (list_url affiliate_id (q_type (req_query req)))]).
Proof.
  intros Hpass Haid Htruthy Hbrace Hup Hok Htext.
  rewrite variant_run_authorized by done.
  unfold variant_handler, try_catch, variant_relay, bind, fetch, await, ret.
  cbv zeta. rewrite Haid, Htruthy. cbn [negb].
  by rewrite Hbrace, Hup, Htext, Hok.
Qed.

Lemma variant_enrich_run cfg affiliate_id offer (w : world) tr :
  answers_by_url w ->
  startable offer = true ->
  variant_enrich cfg affiliate_id offer w tr
  = (Some (Fulfilled (enriched cfg w affiliate_id offer)),
     tr ++ [variant_call cfg (call_url (detail_call cfg affiliate_id offer))])%list.
Proof.
  intros Hurl Hoffer.
  pose proof (proj1 (startable_start_error affiliate_id offer) Hoffer) as Herr.
  unfold start_error in Herr.
  unfold variant_enrich, enriched, detail_lookup, bind, try_catch, await, fetch, ret.
  rewrite <- (Hurl (variant_call cfg (call_url (detail_call cfg affiliate_id offer)))
                   (detail_call cfg affiliate_id offer) eq_refl).
  cbn [detail_call call_url].
  rewrite (get_prop_field _ _ (startable_not_null _ Hoffer)) in *.
  destruct (detail_url affiliate_id (field offer "network_offer_id"))
    as [url|e]; [|discriminate].
  destruct (upstream w _) as [r|e]; [|done].
  destruct (res_ok r); [|done]. cbn [negb].
  destruct (res_json r) as [d|e]; [|done].
  by destruct d.
Qed.

Lemma variant_map_async_run cfg affiliate_id offers (w : world) tr :
  answers_by_url w ->
  Forall (fun offer => startable offer = true) offers ->
  map_async (variant_enrich cfg affiliate_id) offers w tr
  = ((fun v => Pending (Some (Fulfilled v)))
       <$> (enriched cfg w affiliate_id <$> offers),
     tr ++ ((fun offer =>
               variant_call cfg (call_url (detail_call cfg affiliate_id offer)))
              <$> offers))%list.
Proof.
  intros Hurl Hoffers. revert tr.
  induction Hoffers as [|offer offers Hoffer _ IH]; intros tr; cbn [map_async].
  - by rewrite app_nil_r.
  - rewrite variant_enrich_run, IH, grown_trace by done.
    by rewrite <- app_assoc.
Qed.

(** X21.  The two servers enrich alike.  For a request both accept and
    offers whose lookups can all be started, against an upstream that
    answers by URL alone and whose list body [JSON.parse] reads as
    [response.json()] does, the variant's [offers]
    array is the [offers] array of [src/index.js], and both call the same
    URLs in the same order. *)
Theorem variants_agree_on_offers cfg BACKEND_API_KEY JSON_parse (w : world)
    (req : request) (affiliate_id : qvalue) (r : response) (text : string)
    (data : json) (offers : list json) :
  answers_by_url w ->
  api_key_middleware BACKEND_API_KEY req = None ->
  accepted (req_query req) affiliate_id ->
  upstream w (list_call cfg (req_query req) affiliate_id) = Fulfilled r ->
  res_ok r = true ->
  res_text r = Fulfilled text ->
  JSON_parse text = Fulfilled data ->
  res_json r = Fulfilled data ->
  field data "offers" = Some (JArr offers) ->
  Forall (fun offer => startable offer = true) offers ->
  exists out,
    fst (run cfg w (req_query req))
    = Some (Fulfilled (success_response out (clock w)))
    /\ fst (variant_run cfg BACKEND_API_KEY JSON_parse w req)
       = Some (Fulfilled {| http_status := 200;
                            http_body := JObj [("offers", JArr out)] |})
    /\ call_url <$> snd (variant_run cfg BACKEND_API_KEY JSON_parse w req)
       = call_url <$> snd (run cfg w (req_query req)).
Proof.
  intros Hurl Hpass Hacc Hup Hok Htext Hparse Hjson Hoffers Hnonnull.
  exists (enriched cfg w affiliate_id <$> offers).
  rewrite (run_success _ _ _ _ _ _ _ Hacc Hup Hok Hjson Hoffers Hnonnull).
  split; [done|].
  rewrite variant_run_authorized by done.
  destruct Hacc as (Haid & Htruthy & Hbrace & _).
  unfold variant_handler, try_catch, variant_relay, bind, fetch, await.
  cbv zeta. rewrite Haid, Htruthy. cbn [negb]. rewrite Hbrace.
  rewrite (Hurl (variant_call cfg (list_url affiliate_id (q_type (req_query req))))
                (list_call cfg (req_query req) affiliate_id) eq_refl).
  rewrite Hup, Htext, Hok, Hparse. cbn [negb].
  assert (data <> JNull) as Hdata by (intros ->; discriminate).
  rewrite (get_prop_field _ _ Hdata), Hoffers. cbn [js_or truthy array_items].
  rewrite variant_map_async_run by done.
  rewrite (promise_all_fulfilled _ (enriched cfg w affiliate_id <$> offers))
    by by rewrite <- list_fmap_compose.
  cbn [fst snd app ret]. split; [done|].
  cbn [fmap list_fmap call_url variant_call list_call]. f_equal.
  rewrite <- !list_fmap_compose. by apply list_fmap_ext.
Qed.

(** X22.  In the variant a list body that [JSON.parse] rejects ends in the
    [catch]: 500 with the fixed body [{error}], which never carries a
    detail of the failure, after the list call alone. *)
Theorem variant_malformed_body_is_internal_error cfg BACKEND_API_KEY JSON_parse
    (w : world) (req : request) (affiliate_id : qvalue) (r : response)
    (text : string) (e : js_error) :
  api_key_middleware BACKEND_API_KEY req = None ->
  q_affiliate_id (req_query req) = Some affiliate_id ->
  q_truthy affiliate_id = true ->
  q_includes affiliate_id "{" = Fulfilled false ->
  upstream w (variant_call cfg (list_url affiliate_id (q_type (req_query req))))
  = Fulfilled r ->
  res_ok r = true ->
  res_text r = Fulfilled text ->
  JSON_parse text = Rejected e ->
  variant_run cfg BACKEND_API_KEY JSON_parse w req
  = (Some (Fulfilled
             {| http_status := 500;
                http_body := JObj [("error", JStr "Internal server error")] |}),
     [variant_call cfg (list_url affiliate_id (q_type (req_query req)))]).
Proof.
  intros Hpass Haid Htruthy Hbrace Hup Hok Htext Hparse.
  rewrite variant_run_authorized by done.
  unfold variant_handler, try_catch, variant_relay, bind, fetch, await, ret.
  cbv zeta. rewrite Haid, Htruthy. cbn [negb].
  by rewrite Hbrace, Hup, Htext, Hok, Hparse.
Qed.

Lemma variant_enrich_appends cfg affiliate_id offer (w : world) tr :
  exists calls,
    snd (variant_enrich cfg affiliate_id offer w tr) = (tr ++ calls)%list.
Proof.
  unfold variant_enrich, bind, try_catch, await, fetch, ret.
  destruct (get_prop offer "network_offer_id") as [offerId|e];
    [|exists []; by rewrite app_nil_r].
  destruct (detail_url affiliate_id offerId) as [url|e];
    [|exists []; by rewrite app_nil_r].
  exists [variant_call cfg url].
  destruct (upstream w _) as [r|e]; [|done].
  destruct (res_ok r); [|done]. cbn [negb].
  destruct (res_json r) as [d|e]; [|done].
  destruct (get_prop d "default_payout"); [|done].
  by destruct (get_prop d "currency").
Qed.

Lemma variant_map_async_appends cfg affiliate_id offers (w : world) tr :
  exists calls,
    snd (map_async (variant_enrich cfg affiliate_id) offers w tr)
    = (tr ++ calls)%list.
Proof.
  revert tr. induction offers as [|offer offers IH]; intros tr; cbn [map_async].
  - exists []. by rewrite app_nil_r.
  - destruct (variant_enrich_appends cfg affiliate_id offer w tr) as [c1 Hc1].
    destruct (variant_enrich _ _ offer w tr) as [p tr1]. cbn [snd] in Hc1. subst tr1.
    destruct (IH (tr ++ c1)%list) as [c2 Hc2].
    destruct (map_async _ offers w _) as [ps tr2]. cbn [snd] in *. subst tr2.
    exists (c1 ++ c2)%list. by rewrite app_assoc.
Qed.

(** X23.  The variant does not check [type]: past the middleware and the
    [affiliate_id] check, a request whose [type] is neither [top] nor
    [latest] is relayed, and its list URL carries no sort clause. *)
Theorem variant_relays_unknown_type cfg BACKEND_API_KEY JSON_parse (w : world)
    (req : request) (affiliate_id : qvalue) :
  api_key_middleware BACKEND_API_KEY req = None ->
  q_affiliate_id (req_query req) = Some affiliate_id ->
  q_truthy affiliate_id = true ->
  q_includes affiliate_id "{" = Fulfilled false ->
  q_strict_eq (q_type (req_query req)) "top" = false ->
  q_strict_eq (q_type (req_query req)) "latest" = false ->
  exists rest,
    snd (variant_run cfg BACKEND_API_KEY JSON_parse w req)
    = {| call_url :=
           "https://api.eflow.team/v1/networks/offers?affiliate_id="
           +:+ q_to_string affiliate_id
           +:+ "&limit=10&status=active&visibility=public";
         call_headers := api_headers cfg;
         call_timeout := 0 |} :: rest.
Proof.
  intros Hpass Haid Htruthy Hbrace Htop Hlatest.
  rewrite variant_run_authorized by done.
  unfold variant_handler, try_catch, variant_relay, bind, fetch, await, ret.
  cbv zeta. rewrite Haid, Htruthy. cbn [negb]. rewrite Hbrace.
  unfold list_url, variant_call. rewrite Htop, Hlatest. cbn [app].
  destruct (upstream w _) as [r|e]; [|by exists []].
  destruct (res_text r) as [text|e]; [|by exists []].
  destruct (res_ok r); cbn [negb]; [|by exists []].
  destruct (JSON_parse text) as [data|e]; [|by exists []].
  destruct (get_prop data "offers") as [data_offers|e]; [|by exists []].
  destruct (array_items _) as [items|e]; [|by exists []].
  match goal with
  | |- context [map_async _ items w ?tr] =>
      destruct (variant_map_async_appends cfg affiliate_id items w tr)
        as [calls Hcalls];
      destruct (map_async (variant_enrich cfg affiliate_id) items w tr)
        as [ps tr1]
  end.
  cbn [snd] in Hcalls. subst tr1.
  pose proof (promise_all_trace ps w) as Hall.
  match goal with
  | |- context [promise_all ps w ?tr] =>
      specialize (Hall tr); destruct (promise_all ps w tr) as [[[vals|e]|] tr2]
  end;
    cbn [snd] in Hall; subst tr2; by exists calls.
Qed.

End VariantFacts.

(** ** The further properties on concrete executions *)

Section EdgeExecutions.
#[local] Existing Instance int_number.

Lemma demo_answers_by_url up now lat :
  (forall c c', call_url c = call_url c' -> up c = up c') ->
  answers_by_url (demo_world up now lat).
Proof. intros Hup c c' Hc. by apply Hup. Defined.

Lemma demo_upstream_by_url list_response detail_1 detail_2 c c' :
  call_url c = call_url c' ->
  demo_upstream list_response detail_1 detail_2 c
  = demo_upstream list_response detail_1 detail_2 c'.
Proof. intros Hc. unfold demo_upstream. by rewrite Hc. Defined.

Lemma wrong_type_query_status :
  http_status invalid_type_response = 200%Z
  \/ http_status invalid_type_response = 400%Z
  \/ http_status invalid_type_response = 500%Z
  \/ http_status invalid_type_response = 502%Z.
Proof.
  exact (handler_status_codes demo_cfg (first_run partial_upstream)
           (demo_query (Some (QStr "newest"))) invalid_type_response eq_refl).
Defined.

Lemma wrong_type_query_makes_no_call :
  snd (run demo_cfg (first_run partial_upstream)
         (demo_query (Some (QStr "newest")))) = [].
Proof.
  exact (no_call_before_rejection demo_cfg (first_run partial_upstream)
           (demo_query (Some (QStr "newest"))) invalid_type_response
           eq_refl eq_refl).
Defined.

Lemma demo_cfg_is_production : NODE_ENV demo_cfg <> Some "development".
Proof. discriminate. Defined.

Lemma production_error_body :
  http_body (internal_error_response demo_cfg "Error at handler")
  = JObj [("error", JStr "Internal Server Error");
          ("message", JStr "An unexpected error occurred")].
Proof.
  exact (production_hides_stack demo_cfg (first_run unreachable_upstream)
           top_query (internal_error_response demo_cfg "Error at handler")
           demo_cfg_is_production eq_refl eq_refl).
Defined.

Lemma bad_gateway_has_a_cause :
  exists affiliate_id upstream_response text,
    accepted top_query affiliate_id
    /\ upstream (first_run (failing_upstream 503))
         (list_call demo_cfg top_query affiliate_id)
       = Fulfilled upstream_response
    /\ res_ok upstream_response = false
    /\ res_text upstream_response = Fulfilled text
    /\ field (http_body (bad_gateway_response "upstream down")) "details"
       = Some (JStr text)
    /\ snd (run demo_cfg (first_run (failing_upstream 503)) top_query)
       = [list_call demo_cfg top_query affiliate_id].
Proof.
  exact (bad_gateway_only_on_upstream_failure demo_cfg
           (first_run (failing_upstream 503)) top_query
           (bad_gateway_response "upstream down") eq_refl eq_refl).
Defined.

Lemma unreachable_upstream_in_development :
  exists r,
    run development_cfg (first_run unreachable_upstream) top_query
    = (Some (Fulfilled r), [list_call development_cfg top_query (QStr "af123")])
    /\ http_status r = 500%Z
    /\ field (http_body r) "error" = Some (JStr "Internal Server Error")
    /\ field (http_body r) "details" = Some (JStr "Error at handler").
Proof.
  exact (list_call_failure_is_internal_error development_cfg
           (first_run unreachable_upstream) top_query (QStr "af123")
           (HostError "FetchError" "request failed, reason: ECONNRESET")
           top_query_accepted eq_refl).
Defined.

Lemma no_offers_data_not_null : no_offers_data <> JNull.
Proof. discriminate. Defined.

Lemma body_without_offers :
  run demo_cfg (first_run (body_upstream no_offers_data)) top_query
  = (Some (Fulfilled (success_response [] "2026-01-01T00:00:00.000Z")),
     [list_call demo_cfg top_query (QStr "af123")]).
Proof.
  exact (missing_offers_is_empty_list demo_cfg
           (first_run (body_upstream no_offers_data)) top_query (QStr "af123")
           (json_response 200 "{...}" no_offers_data) no_offers_data
           top_query_accepted eq_refl eq_refl eq_refl no_offers_data_not_null
           (or_introl eq_refl)).
Defined.

Lemma html_body_is_internal_error :
  run demo_cfg (first_run html_upstream) top_query
  = (Some (Fulfilled (internal_error_response demo_cfg "Error at handler")),
     [list_call demo_cfg top_query (QStr "af123")])
  /\ http_status (internal_error_response demo_cfg "Error at handler") = 500%Z.
Proof.
  exact (malformed_list_body_is_internal_error demo_cfg (first_run html_upstream)
           top_query (QStr "af123")
           {| res_status := 200;
              res_text := Fulfilled "<html>";
              res_json := Rejected (HostError "SyntaxError" "Unexpected token <") |}
           (HostError "SyntaxError" "Unexpected token <")
           top_query_accepted eq_refl eq_refl eq_refl).
Defined.

Lemma keyed_offers_not_array (items : list json) :
  JObj [("1", offer_alpha)] <> JArr items.
Proof. discriminate. Defined.

Lemma keyed_offers_is_internal_error :
  run demo_cfg (first_run (body_upstream keyed_offers_data)) top_query
  = (Some (Fulfilled (internal_error_response demo_cfg "Error at handler")),
     [list_call demo_cfg top_query (QStr "af123")])
  /\ http_status (internal_error_response demo_cfg "Error at handler") = 500%Z.
Proof.
  exact (non_array_offers_is_internal_error demo_cfg
           (first_run (body_upstream keyed_offers_data)) top_query (QStr "af123")
           (json_response 200 "{...}" keyed_offers_data) keyed_offers_data
           (JObj [("1", offer_alpha)])
           top_query_accepted eq_refl eq_refl eq_refl eq_refl eq_refl
           keyed_offers_not_array).
Defined.

Lemma two_offers_two_lookups :
  snd (run demo_cfg (first_run partial_upstream) top_query)
  = [list_call demo_cfg top_query (QStr "af123");
     detail_call demo_cfg (QStr "af123") offer_alpha;
     detail_call demo_cfg (QStr "af123") offer_beta]
  /\ length (snd (run demo_cfg (first_run partial_upstream) top_query)) = 3.
Proof.
  exact (detail_calls_in_list_order demo_cfg (first_run partial_upstream)
           top_query (QStr "af123")
           (json_response 200 "{...}" list_data) list_data
           [offer_alpha; offer_beta]
           top_query_accepted eq_refl eq_refl eq_refl eq_refl
           two_offers_startable).
Defined.

Lemma alpha_startable :
  Forall (fun offer : json => startable offer = true) [offer_alpha].
Proof. repeat (constructor; [reflexivity|]). constructor. Defined.

Lemma opaque_id_execution :
  exists e,
    (offer_opaque_id = JNull /\ e = TypeError_property_of_null "network_offer_id"
     \/ offer_opaque_id <> JNull /\ e = TypeError_to_primitive)
    /\ run demo_cfg (first_run (body_upstream opaque_id_data)) top_query
       = (Some (Fulfilled (internal_error_response demo_cfg "Error at handler")),
          [list_call demo_cfg top_query (QStr "af123");
           detail_call demo_cfg (QStr "af123") offer_alpha;
           detail_call demo_cfg (QStr "af123") offer_beta])
    /\ http_status (internal_error_response demo_cfg "Error at handler") = 500%Z.
Proof.
  exact (malformed_offer_fails_request demo_cfg
           (first_run (body_upstream opaque_id_data)) top_query (QStr "af123")
           (json_response 200 "{...}" opaque_id_data) opaque_id_data
           [offer_alpha] offer_opaque_id [offer_beta]
           top_query_accepted eq_refl eq_refl eq_refl eq_refl
           alpha_startable eq_refl).
Defined.

Lemma anonymous_offers_startable :
  Forall (fun offer : json => startable offer = true)
         [offer_alpha; offer_without_id].
Proof. repeat (constructor; [reflexivity|]). constructor. Defined.

Lemma anonymous_offer_lookup :
  snd (run demo_cfg (first_run (body_upstream anonymous_offer_data)) top_query)
    !! 2
  = Some {| call_url :=
              "https://api.eflow.team/v1/networks/offers/undefined?affiliate_id=af123";
            call_headers := api_headers demo_cfg;
            call_timeout := 3000 |}.
Proof.
  exact (missing_offer_id_requests_undefined demo_cfg
           (first_run (body_upstream anonymous_offer_data)) top_query
           (QStr "af123")
           (json_response 200 "{...}" anonymous_offer_data) anonymous_offer_data
           [offer_alpha; offer_without_id] 1 offer_without_id
           top_query_accepted eq_refl eq_refl eq_refl eq_refl
           anonymous_offers_startable eq_refl eq_refl).
Defined.

Lemma brace_among_values : QStr "{" ∈ [QStr "af1"; QStr "{"].
Proof. apply list_elem_of_further, list_elem_of_here. Defined.

Lemma repeated_affiliate_with_brace_value :
  run demo_cfg (first_run partial_upstream)
    {| q_type := None; q_affiliate_id := Some (QArr [QStr "af1"; QStr "{"]) |}
  = (Some (Fulfilled
             (invalid_affiliate_response (QArr [QStr "af1"; QStr "{"]))),
     []).
Proof.
  exact (array_affiliate_brace_element_rejected demo_cfg
           (first_run partial_upstream)
           {| q_type := None;
              q_affiliate_id := Some (QArr [QStr "af1"; QStr "{"]) |}
           [QStr "af1"; QStr "{"] eq_refl brace_among_values).
Defined.

Lemma no_brace_value : QStr "{" ∉ [QStr "a{b"; QStr "c"].
Proof.
  intros Hin. apply elem_of_cons in Hin as [Hin|Hin]; [discriminate|].
  apply elem_of_cons in Hin as [Hin|Hin]; [discriminate|].
  by apply elem_of_nil in Hin.
Defined.

Lemma repeated_affiliate_is_relayed :
  exists rest,
    snd (run demo_cfg (first_run partial_upstream) repeated_affiliate_query)
    = {| call_url :=
           "https://api.eflow.team/v1/networks/offers?affiliate_id=a{b,c&limit=10&status=active&visibility=public";
         call_headers := api_headers demo_cfg;
         call_timeout := 5000 |} :: rest.
Proof.
  exact (array_affiliate_is_joined demo_cfg (first_run partial_upstream)
           repeated_affiliate_query [QStr "a{b"; QStr "c"]
           eq_refl no_brace_value eq_refl).
Defined.

Lemma beta_keys_unique : NoDup beta_fields.*1.
Proof.
  cbn. repeat (constructor; [rewrite ?elem_of_cons, elem_of_nil; intuition discriminate|]).
  constructor.
Defined.

Lemma beta_merge_keys_unique :
  exists fields',
    merge_detail (JObj beta_fields) (Some (JNum 12%Z)) (Some (JStr "USD"))
    = JObj fields'
    /\ NoDup fields'.*1.
Proof.
  exact (merge_keeps_keys_unique beta_fields (Some (JNum 12%Z))
           (Some (JStr "USD")) beta_keys_unique).
Defined.

Lemma no_configured_key (k : string) :
  Some "guess" = Some k -> @None string = Some k -> k = "".
Proof. discriminate. Defined.

Lemma unconfigured_key_refuses :
  variant_run demo_cfg None demo_parse (first_run partial_upstream)
    (offers_request (Some "guess") top_query)
  = (Some (Fulfilled unauthorized_response), []).
Proof.
  exact (variant_requires_matching_key demo_cfg None demo_parse
           (first_run partial_upstream)
           (offers_request (Some "guess") top_query) eq_refl no_configured_key).
Defined.

Lemma variant_without_affiliate :
  variant_run demo_cfg (Some "key") demo_parse (first_run partial_upstream)
    (offers_request (Some "key") {| q_type := None; q_affiliate_id := None |})
  = (Some (Fulfilled variant_invalid_response), []).
Proof.
  exact (variant_missing_affiliate_is_error demo_cfg (Some "key") demo_parse
           (first_run partial_upstream)
           (offers_request (Some "key")
              {| q_type := None; q_affiliate_id := None |})
           eq_refl (or_introl eq_refl)).
Defined.

Lemma variant_passes_503 :
  variant_run demo_cfg (Some "key") demo_parse (first_run (failing_upstream 503))
    (offers_request (Some "key") top_query)
  = (Some (Fulfilled (variant_failure_response 503 "upstream down")),
     [variant_call demo_cfg (list_url (QStr "af123") (Some (QStr "top")))]).
Proof.
  exact (variant_passes_upstream_status demo_cfg (Some "key") demo_parse
           (first_run (failing_upstream 503))
           (offers_request (Some "key") top_query) (QStr "af123")
           {| res_status := 503;
              res_text := Fulfilled "upstream down";
              res_json := Rejected (HostError "SyntaxError" "Unexpected token u") |}
           "upstream down" eq_refl eq_refl eq_refl eq_refl eq_refl eq_refl eq_refl).
Defined.

Lemma variant_html_body :
  variant_run demo_cfg (Some "key") demo_parse (first_run html_upstream)
    (offers_request (Some "key") top_query)
  = (Some (Fulfilled variant_error_response),
     [variant_call demo_cfg (list_url (QStr "af123") (Some (QStr "top")))]).
Proof.
  exact (variant_malformed_body_is_internal_error demo_cfg (Some "key")
           demo_parse (first_run html_upstream)
           (offers_request (Some "key") top_query) (QStr "af123")
           {| res_status := 200;
              res_text := Fulfilled "<html>";
              res_json := Rejected (HostError "SyntaxError" "Unexpected token <") |}
           "<html>" (HostError "SyntaxError" "Unexpected token")
           eq_refl eq_refl eq_refl eq_refl eq_refl eq_refl eq_refl eq_refl).
Defined.

Lemma variants_agree_execution :
  exists out,
    fst (run demo_cfg (first_run partial_upstream) top_query)
    = Some (Fulfilled (success_response out "2026-01-01T00:00:00.000Z"))
    /\ fst (variant_run demo_cfg (Some "key") demo_parse
              (first_run partial_upstream)
              (offers_request (Some "key") top_query))
       = Some (Fulfilled (variant_success_response out))
    /\ call_url <$> snd (variant_run demo_cfg (Some "key") demo_parse
                           (first_run partial_upstream)
                           (offers_request (Some "key") top_query))
       = call_url <$> snd (run demo_cfg (first_run partial_upstream) top_query).
Proof.
  exact (variants_agree_on_offers demo_cfg (Some "key") demo_parse
           (first_run partial_upstream)
           (offers_request (Some "key") top_query) (QStr "af123")
           (json_response 200 "{...}" list_data) "{...}" list_data
           [offer_alpha; offer_beta]
           (demo_answers_by_url partial_upstream _ _
              (demo_upstream_by_url two_offers network_error (detail_usd 12)))
           eq_refl top_query_accepted eq_refl eq_refl eq_refl eq_refl eq_refl
           eq_refl two_offers_startable).
Defined.

Lemma variant_relays_newest :
  exists rest,
    snd (variant_run demo_cfg (Some "key") demo_parse (first_run partial_upstream)
           (offers_request (Some "key") (demo_query (Some (QStr "newest")))))
    = {| call_url :=
           "https://api.eflow.team/v1/networks/offers?affiliate_id=af123&limit=10&status=active&visibility=public";
         call_headers := api_headers demo_cfg;
         call_timeout := 0 |} :: rest.
Proof.
  exact (variant_relays_unknown_type demo_cfg (Some "key") demo_parse
           (first_run partial_upstream)
           (offers_request (Some "key") (demo_query (Some (QStr "newest"))))
           (QStr "af123") eq_refl eq_refl eq_refl eq_refl eq_refl eq_refl).
Defined.

End EdgeExecutions.
